(** * The katzenpost stream: a shallow embedding of [stream/stream.go]

    The stream carries a reliable byte stream over a key-addressed message
    store.  This development embeds the Go code of [stream/stream.go] as
    Rocq functions over an explicit [Stream] record, and states the
    properties of the specification over them.

    Conventions.
    - A byte is a [Z] in [0, 256); a byte slice is a [list Z].
    - A [uint64] is a [Z] in [0, 2^64); every addition and subtraction the
      code performs on one is written with its wrap-around ([u64]).
    - [time.Time] and [time.Duration] are [Z] (nanoseconds); the zero
      [time.Time] is [0].
    - Channels of capacity one carrying [struct{}] are [bool]s (a pending
      signal), the set [map[uint64]struct{}] is a [gset Z].
    - What the code gets from outside (the clock, the random nonce, the
      result of the substrate's Put and Get, the case a blocked [select]
      takes) is an explicit argument of the function that uses it. *)

From Stdlib Require Import ZArith Lia List Bool String Ascii.
From stdpp Require Import base tactics option list gmap sets.

Open Scope Z_scope.

(** ** Bytes and 64-bit words *)

Definition u64 (x : Z) : Z := x mod 2 ^ 64.

(** Go's conversion [byte(x)] of an unsigned integer: the low eight bits. *)
Definition byte (x : Z) : Z := Z.land x 255.

Definition is_byte (b : Z) : Prop := 0 <= b < 256.

Fixpoint bytes_of_string (s : string) : list Z :=
  match s with
  | EmptyString => []
  | String a r => Z.of_nat (nat_of_ascii a) :: bytes_of_string r
  end.

Definition len {A} (l : list A) : Z := Z.of_nat (length l).

(** [make([]byte, n)]: [n] zero bytes. *)
Definition make (n : Z) : list Z := replicate (Z.to_nat n) 0.

(** [binary.BigEndian.PutUint64(f, v)] on a fresh 8-byte slice. *)
Definition PutUint64 (v : Z) : list Z :=
  [ byte (Z.shiftr v 56); byte (Z.shiftr v 48); byte (Z.shiftr v 40);
    byte (Z.shiftr v 32); byte (Z.shiftr v 24); byte (Z.shiftr v 16);
    byte (Z.shiftr v 8); byte v ].

Definition PutUint32 (v : Z) : list Z :=
  [ byte (Z.shiftr v 24); byte (Z.shiftr v 16); byte (Z.shiftr v 8); byte v ].

Definition PutUint16 (v : Z) : list Z :=
  [ byte (Z.shiftr v 8); byte v ].

(** The number a big-endian byte string denotes. *)
Definition be_value (l : list Z) : Z :=
  fold_left (fun acc b => acc * 256 + b) l 0.

(** The specification's [be64(n)]: the eight base-256 digits of [n], most
    significant first. *)
Definition be64 (n : Z) : list Z :=
  map (fun i => (n / 256 ^ (7 - i)) mod 256) [0; 1; 2; 3; 4; 5; 6; 7].

(** ** SHA-256 (FIPS 180-4), the [crypto/sha256] of the Go library *)

Module SHA256.

Definition w32 (x : Z) : Z := Z.land x 4294967295.

Definition add32 (x y : Z) : Z := w32 (x + y).

Definition rotr (n x : Z) : Z :=
  Z.lor (Z.shiftr x n) (w32 (Z.shiftl x (32 - n))).

Definition Ch (x y z : Z) : Z :=
  Z.lxor (Z.land x y) (Z.land (Z.lxor x 4294967295) z).

Definition Maj (x y z : Z) : Z :=
  Z.lxor (Z.lxor (Z.land x y) (Z.land x z)) (Z.land y z).

Definition Sigma0 (x : Z) : Z := Z.lxor (Z.lxor (rotr 2 x) (rotr 13 x)) (rotr 22 x).
Definition Sigma1 (x : Z) : Z := Z.lxor (Z.lxor (rotr 6 x) (rotr 11 x)) (rotr 25 x).
Definition sigma0 (x : Z) : Z := Z.lxor (Z.lxor (rotr 7 x) (rotr 18 x)) (Z.shiftr x 3).
Definition sigma1 (x : Z) : Z := Z.lxor (Z.lxor (rotr 17 x) (rotr 19 x)) (Z.shiftr x 10).

Definition K : list Z :=
  [ 1116352408; 1899447441; 3049323471; 3921009573; 961987163; 1508970993;
    2453635748; 2870763221; 3624381080; 310598401; 607225278; 1426881987;
    1925078388; 2162078206; 2614888103; 3248222580; 3835390401; 4022224774;
    264347078; 604807628; 770255983; 1249150122; 1555081692; 1996064986;
    2554220882; 2821834349; 2952996808; 3210313671; 3336571891; 3584528711;
    113926993; 338241895; 666307205; 773529912; 1294757372; 1396182291;
    1695183700; 1986661051; 2177026350; 2456956037; 2730485921; 2820302411;
    3259730800; 3345764771; 3516065817; 3600352804; 4094571909; 275423344;
    430227734; 506948616; 659060556; 883997877; 958139571; 1322822218;
    1537002063; 1747873779; 1955562222; 2024104815; 2227730452; 2361852424;
    2428436474; 2756734187; 3204031479; 3329325298 ].

Definition H0 : list Z :=
  [ 1779033703; 3144134277; 1013904242; 2773480762;
    1359893119; 2600822924; 528734635; 1541459225 ].

Definition nthw (l : list Z) (i : nat) : Z := nth i l 0.

(** One round: [regs] are the working variables a..h, [ws] the sixteen
    schedule words W[t..t+15]. *)
Definition round (st : list Z * list Z) (k : Z) : list Z * list Z :=
  let '(regs, ws) := st in
  let a := nthw regs 0 in let b := nthw regs 1 in
  let c := nthw regs 2 in let d := nthw regs 3 in
  let e := nthw regs 4 in let f := nthw regs 5 in
  let g := nthw regs 6 in let h := nthw regs 7 in
  let w := nthw ws 0 in
  let t1 := add32 (add32 (add32 (add32 h (Sigma1 e)) (Ch e f g)) k) w in
  let t2 := add32 (Sigma0 a) (Maj a b c) in
  let wnext :=
    add32 (add32 (add32 (sigma1 (nthw ws 14)) (nthw ws 9)) (sigma0 (nthw ws 1))) w in
  ([add32 t1 t2; a; b; c; add32 d t1; e; f; g], tail ws ++ [wnext]).

Fixpoint words (bs : list Z) : list Z :=
  match bs with
  | b0 :: b1 :: b2 :: b3 :: r => be_value [b0; b1; b2; b3] :: words r
  | _ => []
  end.

Definition compress (h : list Z) (block : list Z) : list Z :=
  let '(regs, _) := fold_left round K (h, words block) in
  map (fun p => add32 (fst p) (snd p)) (combine h regs).

Definition pad (msg : list Z) : list Z :=
  msg ++ [128] ++ make ((55 - len msg) mod 64) ++ PutUint64 (8 * len msg).

Fixpoint blocks (fuel : nat) (bs : list Z) : list (list Z) :=
  match fuel with
  | O => []
  | S fuel' =>
      match bs with
      | [] => []
      | _ => take 64 bs :: blocks fuel' (drop 64 bs)
      end
  end.

Definition Sum256 (msg : list Z) : list Z :=
  let p := pad msg in
  concat (map PutUint32 (fold_left compress (blocks (length p) p) H0)).

End SHA256.

(** HMAC-SHA256 (RFC 2104), as [crypto/hmac] computes it. *)
Definition hmac_sha256 (key msg : list Z) : list Z :=
  let k0 := if 64 <? len key then SHA256.Sum256 key else key in
  let k := k0 ++ make (64 - len k0) in
  SHA256.Sum256 (map (Z.lxor 92) k ++ SHA256.Sum256 (map (Z.lxor 54) k ++ msg)).

(** ** HKDF (RFC 5869), the reader of [golang.org/x/crypto/hkdf] *)

Record hkdf_reader := Hkdf {
  hk_prk : list Z;        (* the pseudorandom key of the extract step *)
  hk_info : list Z;
  hk_counter : Z;         (* blocks produced so far *)
  hk_prev : list Z;       (* T(counter) *)
  hk_buf : list Z;        (* bytes produced and not yet read *)
}.

(** [hkdf.New(sha256.New, secret, salt, info)]. *)
Definition hkdf_New (secret salt info : list Z) : hkdf_reader :=
  let salt' := match salt with [] => make 32 | _ => salt end in
  Hkdf (hmac_sha256 salt' secret) info 0 [] [].

Definition hkdf_expand (r : hkdf_reader) : hkdf_reader :=
  let c := hk_counter r + 1 in
  let t := hmac_sha256 (hk_prk r) (hk_prev r ++ hk_info r ++ [byte c]) in
  Hkdf (hk_prk r) (hk_info r) c t (hk_buf r ++ t).

Fixpoint hkdf_fill (fuel : nat) (n : Z) (r : hkdf_reader) : hkdf_reader :=
  match fuel with
  | O => r
  | S fuel' => if len (hk_buf r) <? n then hkdf_fill fuel' n (hkdf_expand r) else r
  end.

(** [io.ReadFull(r, b)] for a [b] of [n] bytes, [n] small enough for the
    reader never to run dry (it yields 255 blocks of 32 bytes). *)
Definition io_ReadFull (n : Z) (r : hkdf_reader) : list Z * hkdf_reader :=
  let r' := hkdf_fill (Z.to_nat n) n r in
  (take (Z.to_nat n) (hk_buf r'),
   Hkdf (hk_prk r') (hk_info r') (hk_counter r') (hk_prev r') (drop (Z.to_nat n) (hk_buf r'))).

(** ** CBOR ([github.com/fxamacker/cbor/v2], default encoding options)

    [cbor.Marshal] writes a struct as a map from the names of its exported
    fields, in declaration order, to their values; an unsigned integer and
    every length take the shortest of the five argument forms of RFC 8949;
    a nil slice is written as null and any other byte slice as a byte
    string. *)

Definition cbor_head (major arg : Z) : list Z :=
  if arg <? 24 then [major * 32 + arg]
  else if arg <? 256 then [major * 32 + 24; arg]
  else if arg <? 65536 then (major * 32 + 25) :: PutUint16 arg
  else if arg <? 4294967296 then (major * 32 + 26) :: PutUint32 arg
  else (major * 32 + 27) :: PutUint64 arg.

Definition cbor_uint (n : Z) : list Z := cbor_head 0 n.

Definition cbor_text (s : string) : list Z :=
  cbor_head 3 (len (bytes_of_string s)) ++ bytes_of_string s.

(** A Go byte slice is [None] when nil. *)
Definition cbor_bytes (b : option (list Z)) : list Z :=
  match b with
  | None => [246]
  | Some l => cbor_head 2 (len l) ++ l
  end.

(** ** [golang.org/x/crypto/nacl/secretbox], symbolically

    The box is not computed: a sealed message records the key, the nonce
    and the plaintext it was made from.  Its length is the plaintext's
    plus [secretbox.Overhead], the 16 bytes of the Poly1305 tag. *)

Record sealed := Sealed {
  sealed_key : list Z;
  sealed_nonce : list Z;
  sealed_msg : list Z;
}.

Definition secretbox_Overhead : Z := 16.

Definition secretbox_Seal (message nonce key : list Z) : sealed :=
  Sealed key nonce message.

Definition sealed_len (b : sealed) : Z := len (sealed_msg b) + secretbox_Overhead.

(** [append(nonce[:], ciphertext...)]: what is handed to the substrate. *)
Record ciphertext := Ciphertext {
  ct_nonce : list Z;
  ct_box : sealed;
}.

Definition ciphertext_len (ct : ciphertext) : Z :=
  len (ct_nonce ct) + sealed_len (ct_box ct).

(** ** The data model of [stream.go] *)

Definition keySize : Z := 32.
Definition nonceSize : Z := 24.

Inductive FrameType := StreamStart | StreamData | StreamEnd.

Definition FrameType_uint8 (t : FrameType) : Z :=
  match t with StreamStart => 0 | StreamData => 1 | StreamEnd => 2 end.

#[global] Instance FrameType_eq_dec : EqDecision FrameType.
Proof. solve_decision. Defined.

Record Frame := {
  Type_ : FrameType;
  id : Z;                        (* not serialized *)
  Ack : Z;
  Payload : option (list Z);
}.

(** [cbor.Marshal(frame)]; the unexported [id] is left out. *)
Definition cbor_Marshal (frame : Frame) : list Z :=
  cbor_head 5 3
  ++ cbor_text "Type" ++ cbor_uint (FrameType_uint8 (Type_ frame))
  ++ cbor_text "Ack" ++ cbor_uint (Ack frame)
  ++ cbor_text "Payload" ++ cbor_bytes (Payload frame).

Inductive StreamMode := ReliableStream | ScrambleStream.
Inductive StreamState := StreamOpen | StreamClosing | StreamClosed.

#[global] Instance StreamMode_eq_dec : EqDecision StreamMode.
Proof. solve_decision. Defined.
#[global] Instance StreamState_eq_dec : EqDecision StreamState.
Proof. solve_decision. Defined.

Record smsg := {
  f : Frame;
  priority : Z;
}.

Inductive error := io_EOF | os_ErrDeadlineExceeded | ErrPut | ErrRand.

(** Modelled from the spec: the substrate ([map/client], not among the
    sources) is "an untrusted key-addressable message store" whose
    operations are [Put(key, ciphertext)] and [Get(key)].  The handle
    records the calls of Put that succeeded, latest first; what Get
    returns is an input of the reader. *)
Record PutCall := {
  put_key : list Z;
  put_value : ciphertext;
  put_frame : Frame;             (* the frame sealed in [put_value] *)
}.

Definition Client := list PutCall.

(** Modelled from the spec: the timer queue ([client.TimerQueue], not among
    the sources) is "a priority queue of opaque items keyed by a 64-bit
    priority"; "when a deadline elapses, the queue hands the entry back to
    the owner" by calling its [Push].  The queue is the list of its
    entries; the clock that fires them is outside the model. *)
Definition TimerQueue := list smsg.

Record retx := {
  wack : gset Z;
}.

(** The struct [Stream].  Left out: the mutex (each function below is one
    or more critical sections), the counters [f_writes] and [f_reads] and
    the addresses [laddr] and [raddr], which no function below reads.
    [halted] is the embedded [worker.Worker]: whether [HaltCh] is closed. *)
Record Stream := {
  c : Client;
  halted : bool;
  writekey : list Z;
  readkey : list Z;
  write_id_base : list Z;
  read_id_base : list Z;
  writeBuf : list Z;
  readBuf : list Z;
  f_read_idx : Z;
  f_write_idx : Z;
  f_ack_idx : Z;
  tq : TimerQueue;
  r : retx;
  stream_window_size : Z;
  max_writebuf_size : Z;
  Mode : StreamMode;
  RState : StreamState;
  WState : StreamState;
  readDeadline : Z;
  writeDeadline : Z;
  defaultTimeout : Z;
  onFlush : bool;
  onAck : bool;
  onWrite : bool;
  onRead : bool;
  onStreamClose : bool;
  onUpdateDeadline : bool;
}.

(** Assignments to the fields that the code writes. *)

Definition set_c (v : Client) (s : Stream) : Stream :=
  {| c := v; halted := halted s; writekey := writekey s; readkey := readkey s;
     write_id_base := write_id_base s; read_id_base := read_id_base s;
     writeBuf := writeBuf s; readBuf := readBuf s; f_read_idx := f_read_idx s;
     f_write_idx := f_write_idx s; f_ack_idx := f_ack_idx s; tq := tq s; r := r s;
     stream_window_size := stream_window_size s;
     max_writebuf_size := max_writebuf_size s; Mode := Mode s; RState := RState s;
     WState := WState s; readDeadline := readDeadline s;
     writeDeadline := writeDeadline s; defaultTimeout := defaultTimeout s;
     onFlush := onFlush s; onAck := onAck s; onWrite := onWrite s; onRead := onRead s;
     onStreamClose := onStreamClose s; onUpdateDeadline := onUpdateDeadline s |}.

Definition set_halted (v : bool) (s : Stream) : Stream :=
  {| c := c s; halted := v; writekey := writekey s; readkey := readkey s;
     write_id_base := write_id_base s; read_id_base := read_id_base s;
     writeBuf := writeBuf s; readBuf := readBuf s; f_read_idx := f_read_idx s;
     f_write_idx := f_write_idx s; f_ack_idx := f_ack_idx s; tq := tq s; r := r s;
     stream_window_size := stream_window_size s;
     max_writebuf_size := max_writebuf_size s; Mode := Mode s; RState := RState s;
     WState := WState s; readDeadline := readDeadline s;
     writeDeadline := writeDeadline s; defaultTimeout := defaultTimeout s;
     onFlush := onFlush s; onAck := onAck s; onWrite := onWrite s; onRead := onRead s;
     onStreamClose := onStreamClose s; onUpdateDeadline := onUpdateDeadline s |}.

Definition set_writeBuf (v : list Z) (s : Stream) : Stream :=
  {| c := c s; halted := halted s; writekey := writekey s; readkey := readkey s;
     write_id_base := write_id_base s; read_id_base := read_id_base s; writeBuf := v;
     readBuf := readBuf s; f_read_idx := f_read_idx s; f_write_idx := f_write_idx s;
     f_ack_idx := f_ack_idx s; tq := tq s; r := r s;
     stream_window_size := stream_window_size s;
     max_writebuf_size := max_writebuf_size s; Mode := Mode s; RState := RState s;
     WState := WState s; readDeadline := readDeadline s;
     writeDeadline := writeDeadline s; defaultTimeout := defaultTimeout s;
     onFlush := onFlush s; onAck := onAck s; onWrite := onWrite s; onRead := onRead s;
     onStreamClose := onStreamClose s; onUpdateDeadline := onUpdateDeadline s |}.

Definition set_readBuf (v : list Z) (s : Stream) : Stream :=
  {| c := c s; halted := halted s; writekey := writekey s; readkey := readkey s;
     write_id_base := write_id_base s; read_id_base := read_id_base s;
     writeBuf := writeBuf s; readBuf := v; f_read_idx := f_read_idx s;
     f_write_idx := f_write_idx s; f_ack_idx := f_ack_idx s; tq := tq s; r := r s;
     stream_window_size := stream_window_size s;
     max_writebuf_size := max_writebuf_size s; Mode := Mode s; RState := RState s;
     WState := WState s; readDeadline := readDeadline s;
     writeDeadline := writeDeadline s; defaultTimeout := defaultTimeout s;
     onFlush := onFlush s; onAck := onAck s; onWrite := onWrite s; onRead := onRead s;
     onStreamClose := onStreamClose s; onUpdateDeadline := onUpdateDeadline s |}.

Definition set_f_read_idx (v : Z) (s : Stream) : Stream :=
  {| c := c s; halted := halted s; writekey := writekey s; readkey := readkey s;
     write_id_base := write_id_base s; read_id_base := read_id_base s;
     writeBuf := writeBuf s; readBuf := readBuf s; f_read_idx := v;
     f_write_idx := f_write_idx s; f_ack_idx := f_ack_idx s; tq := tq s; r := r s;
     stream_window_size := stream_window_size s;
     max_writebuf_size := max_writebuf_size s; Mode := Mode s; RState := RState s;
     WState := WState s; readDeadline := readDeadline s;
     writeDeadline := writeDeadline s; defaultTimeout := defaultTimeout s;
     onFlush := onFlush s; onAck := onAck s; onWrite := onWrite s; onRead := onRead s;
     onStreamClose := onStreamClose s; onUpdateDeadline := onUpdateDeadline s |}.

Definition set_f_write_idx (v : Z) (s : Stream) : Stream :=
  {| c := c s; halted := halted s; writekey := writekey s; readkey := readkey s;
     write_id_base := write_id_base s; read_id_base := read_id_base s;
     writeBuf := writeBuf s; readBuf := readBuf s; f_read_idx := f_read_idx s;
     f_write_idx := v; f_ack_idx := f_ack_idx s; tq := tq s; r := r s;
     stream_window_size := stream_window_size s;
     max_writebuf_size := max_writebuf_size s; Mode := Mode s; RState := RState s;
     WState := WState s; readDeadline := readDeadline s;
     writeDeadline := writeDeadline s; defaultTimeout := defaultTimeout s;
     onFlush := onFlush s; onAck := onAck s; onWrite := onWrite s; onRead := onRead s;
     onStreamClose := onStreamClose s; onUpdateDeadline := onUpdateDeadline s |}.

Definition set_f_ack_idx (v : Z) (s : Stream) : Stream :=
  {| c := c s; halted := halted s; writekey := writekey s; readkey := readkey s;
     write_id_base := write_id_base s; read_id_base := read_id_base s;
     writeBuf := writeBuf s; readBuf := readBuf s; f_read_idx := f_read_idx s;
     f_write_idx := f_write_idx s; f_ack_idx := v; tq := tq s; r := r s;
     stream_window_size := stream_window_size s;
     max_writebuf_size := max_writebuf_size s; Mode := Mode s; RState := RState s;
     WState := WState s; readDeadline := readDeadline s;
     writeDeadline := writeDeadline s; defaultTimeout := defaultTimeout s;
     onFlush := onFlush s; onAck := onAck s; onWrite := onWrite s; onRead := onRead s;
     onStreamClose := onStreamClose s; onUpdateDeadline := onUpdateDeadline s |}.

Definition set_tq (v : TimerQueue) (s : Stream) : Stream :=
  {| c := c s; halted := halted s; writekey := writekey s; readkey := readkey s;
     write_id_base := write_id_base s; read_id_base := read_id_base s;
     writeBuf := writeBuf s; readBuf := readBuf s; f_read_idx := f_read_idx s;
     f_write_idx := f_write_idx s; f_ack_idx := f_ack_idx s; tq := v; r := r s;
     stream_window_size := stream_window_size s;
     max_writebuf_size := max_writebuf_size s; Mode := Mode s; RState := RState s;
     WState := WState s; readDeadline := readDeadline s;
     writeDeadline := writeDeadline s; defaultTimeout := defaultTimeout s;
     onFlush := onFlush s; onAck := onAck s; onWrite := onWrite s; onRead := onRead s;
     onStreamClose := onStreamClose s; onUpdateDeadline := onUpdateDeadline s |}.

Definition set_r (v : retx) (s : Stream) : Stream :=
  {| c := c s; halted := halted s; writekey := writekey s; readkey := readkey s;
     write_id_base := write_id_base s; read_id_base := read_id_base s;
     writeBuf := writeBuf s; readBuf := readBuf s; f_read_idx := f_read_idx s;
     f_write_idx := f_write_idx s; f_ack_idx := f_ack_idx s; tq := tq s; r := v;
     stream_window_size := stream_window_size s;
     max_writebuf_size := max_writebuf_size s; Mode := Mode s; RState := RState s;
     WState := WState s; readDeadline := readDeadline s;
     writeDeadline := writeDeadline s; defaultTimeout := defaultTimeout s;
     onFlush := onFlush s; onAck := onAck s; onWrite := onWrite s; onRead := onRead s;
     onStreamClose := onStreamClose s; onUpdateDeadline := onUpdateDeadline s |}.

Definition set_RState (v : StreamState) (s : Stream) : Stream :=
  {| c := c s; halted := halted s; writekey := writekey s; readkey := readkey s;
     write_id_base := write_id_base s; read_id_base := read_id_base s;
     writeBuf := writeBuf s; readBuf := readBuf s; f_read_idx := f_read_idx s;
     f_write_idx := f_write_idx s; f_ack_idx := f_ack_idx s; tq := tq s; r := r s;
     stream_window_size := stream_window_size s;
     max_writebuf_size := max_writebuf_size s; Mode := Mode s; RState := v;
     WState := WState s; readDeadline := readDeadline s;
     writeDeadline := writeDeadline s; defaultTimeout := defaultTimeout s;
     onFlush := onFlush s; onAck := onAck s; onWrite := onWrite s; onRead := onRead s;
     onStreamClose := onStreamClose s; onUpdateDeadline := onUpdateDeadline s |}.

Definition set_WState (v : StreamState) (s : Stream) : Stream :=
  {| c := c s; halted := halted s; writekey := writekey s; readkey := readkey s;
     write_id_base := write_id_base s; read_id_base := read_id_base s;
     writeBuf := writeBuf s; readBuf := readBuf s; f_read_idx := f_read_idx s;
     f_write_idx := f_write_idx s; f_ack_idx := f_ack_idx s; tq := tq s; r := r s;
     stream_window_size := stream_window_size s;
     max_writebuf_size := max_writebuf_size s; Mode := Mode s; RState := RState s;
     WState := v; readDeadline := readDeadline s; writeDeadline := writeDeadline s;
     defaultTimeout := defaultTimeout s; onFlush := onFlush s; onAck := onAck s;
     onWrite := onWrite s; onRead := onRead s; onStreamClose := onStreamClose s;
     onUpdateDeadline := onUpdateDeadline s |}.

Definition set_readDeadline (v : Z) (s : Stream) : Stream :=
  {| c := c s; halted := halted s; writekey := writekey s; readkey := readkey s;
     write_id_base := write_id_base s; read_id_base := read_id_base s;
     writeBuf := writeBuf s; readBuf := readBuf s; f_read_idx := f_read_idx s;
     f_write_idx := f_write_idx s; f_ack_idx := f_ack_idx s; tq := tq s; r := r s;
     stream_window_size := stream_window_size s;
     max_writebuf_size := max_writebuf_size s; Mode := Mode s; RState := RState s;
     WState := WState s; readDeadline := v; writeDeadline := writeDeadline s;
     defaultTimeout := defaultTimeout s; onFlush := onFlush s; onAck := onAck s;
     onWrite := onWrite s; onRead := onRead s; onStreamClose := onStreamClose s;
     onUpdateDeadline := onUpdateDeadline s |}.

Definition set_writeDeadline (v : Z) (s : Stream) : Stream :=
  {| c := c s; halted := halted s; writekey := writekey s; readkey := readkey s;
     write_id_base := write_id_base s; read_id_base := read_id_base s;
     writeBuf := writeBuf s; readBuf := readBuf s; f_read_idx := f_read_idx s;
     f_write_idx := f_write_idx s; f_ack_idx := f_ack_idx s; tq := tq s; r := r s;
     stream_window_size := stream_window_size s;
     max_writebuf_size := max_writebuf_size s; Mode := Mode s; RState := RState s;
     WState := WState s; readDeadline := readDeadline s; writeDeadline := v;
     defaultTimeout := defaultTimeout s; onFlush := onFlush s; onAck := onAck s;
     onWrite := onWrite s; onRead := onRead s; onStreamClose := onStreamClose s;
     onUpdateDeadline := onUpdateDeadline s |}.

Definition set_onFlush (v : bool) (s : Stream) : Stream :=
  {| c := c s; halted := halted s; writekey := writekey s; readkey := readkey s;
     write_id_base := write_id_base s; read_id_base := read_id_base s;
     writeBuf := writeBuf s; readBuf := readBuf s; f_read_idx := f_read_idx s;
     f_write_idx := f_write_idx s; f_ack_idx := f_ack_idx s; tq := tq s; r := r s;
     stream_window_size := stream_window_size s;
     max_writebuf_size := max_writebuf_size s; Mode := Mode s; RState := RState s;
     WState := WState s; readDeadline := readDeadline s;
     writeDeadline := writeDeadline s; defaultTimeout := defaultTimeout s;
     onFlush := v; onAck := onAck s; onWrite := onWrite s; onRead := onRead s;
     onStreamClose := onStreamClose s; onUpdateDeadline := onUpdateDeadline s |}.

Definition set_onAck (v : bool) (s : Stream) : Stream :=
  {| c := c s; halted := halted s; writekey := writekey s; readkey := readkey s;
     write_id_base := write_id_base s; read_id_base := read_id_base s;
     writeBuf := writeBuf s; readBuf := readBuf s; f_read_idx := f_read_idx s;
     f_write_idx := f_write_idx s; f_ack_idx := f_ack_idx s; tq := tq s; r := r s;
     stream_window_size := stream_window_size s;
     max_writebuf_size := max_writebuf_size s; Mode := Mode s; RState := RState s;
     WState := WState s; readDeadline := readDeadline s;
     writeDeadline := writeDeadline s; defaultTimeout := defaultTimeout s;
     onFlush := onFlush s; onAck := v; onWrite := onWrite s; onRead := onRead s;
     onStreamClose := onStreamClose s; onUpdateDeadline := onUpdateDeadline s |}.

Definition set_onWrite (v : bool) (s : Stream) : Stream :=
  {| c := c s; halted := halted s; writekey := writekey s; readkey := readkey s;
     write_id_base := write_id_base s; read_id_base := read_id_base s;
     writeBuf := writeBuf s; readBuf := readBuf s; f_read_idx := f_read_idx s;
     f_write_idx := f_write_idx s; f_ack_idx := f_ack_idx s; tq := tq s; r := r s;
     stream_window_size := stream_window_size s;
     max_writebuf_size := max_writebuf_size s; Mode := Mode s; RState := RState s;
     WState := WState s; readDeadline := readDeadline s;
     writeDeadline := writeDeadline s; defaultTimeout := defaultTimeout s;
     onFlush := onFlush s; onAck := onAck s; onWrite := v; onRead := onRead s;
     onStreamClose := onStreamClose s; onUpdateDeadline := onUpdateDeadline s |}.

Definition set_onRead (v : bool) (s : Stream) : Stream :=
  {| c := c s; halted := halted s; writekey := writekey s; readkey := readkey s;
     write_id_base := write_id_base s; read_id_base := read_id_base s;
     writeBuf := writeBuf s; readBuf := readBuf s; f_read_idx := f_read_idx s;
     f_write_idx := f_write_idx s; f_ack_idx := f_ack_idx s; tq := tq s; r := r s;
     stream_window_size := stream_window_size s;
     max_writebuf_size := max_writebuf_size s; Mode := Mode s; RState := RState s;
     WState := WState s; readDeadline := readDeadline s;
     writeDeadline := writeDeadline s; defaultTimeout := defaultTimeout s;
     onFlush := onFlush s; onAck := onAck s; onWrite := onWrite s; onRead := v;
     onStreamClose := onStreamClose s; onUpdateDeadline := onUpdateDeadline s |}.

Definition set_onStreamClose (v : bool) (s : Stream) : Stream :=
  {| c := c s; halted := halted s; writekey := writekey s; readkey := readkey s;
     write_id_base := write_id_base s; read_id_base := read_id_base s;
     writeBuf := writeBuf s; readBuf := readBuf s; f_read_idx := f_read_idx s;
     f_write_idx := f_write_idx s; f_ack_idx := f_ack_idx s; tq := tq s; r := r s;
     stream_window_size := stream_window_size s;
     max_writebuf_size := max_writebuf_size s; Mode := Mode s; RState := RState s;
     WState := WState s; readDeadline := readDeadline s;
     writeDeadline := writeDeadline s; defaultTimeout := defaultTimeout s;
     onFlush := onFlush s; onAck := onAck s; onWrite := onWrite s; onRead := onRead s;
     onStreamClose := v; onUpdateDeadline := onUpdateDeadline s |}.

Definition set_onUpdateDeadline (v : bool) (s : Stream) : Stream :=
  {| c := c s; halted := halted s; writekey := writekey s; readkey := readkey s;
     write_id_base := write_id_base s; read_id_base := read_id_base s;
     writeBuf := writeBuf s; readBuf := readBuf s; f_read_idx := f_read_idx s;
     f_write_idx := f_write_idx s; f_ack_idx := f_ack_idx s; tq := tq s; r := r s;
     stream_window_size := stream_window_size s;
     max_writebuf_size := max_writebuf_size s; Mode := Mode s; RState := RState s;
     WState := WState s; readDeadline := readDeadline s;
     writeDeadline := writeDeadline s; defaultTimeout := defaultTimeout s;
     onFlush := onFlush s; onAck := onAck s; onWrite := onWrite s; onRead := onRead s;
     onStreamClose := onStreamClose s; onUpdateDeadline := v |}.

(** ** Signals

    Each of the six channels has capacity one; [doFlush], [doOnRead] and
    [doOnWrite] send without blocking, so a signal sent while one is
    pending is lost. *)

Definition doFlush (s : Stream) : Stream := set_onFlush true s.
Definition doOnRead (s : Stream) : Stream := set_onRead true s.
Definition doOnWrite (s : Stream) : Stream := set_onWrite true s.

(** ** Key and identifier schedule *)

Definition H (i : list Z) : list Z := SHA256.Sum256 i.

Definition TID (i : list Z) : list Z :=
  let pre := bytes_of_string
    "Both clients get this from somewhere to prepend the input to H, such as the PriorSharedRandom" in
  H (pre ++ i).

Definition rxFrameID (s : Stream) (frame_num : Z) : list Z :=
  H (read_id_base s ++ PutUint64 frame_num).

Definition rxFrameKey (s : Stream) (frame_num : Z) : list Z :=
  H (readkey s ++ PutUint64 frame_num).

Definition txFrameKey (s : Stream) (frame_num : Z) : list Z :=
  H (writekey s ++ PutUint64 frame_num).

Definition txFrameID (s : Stream) (frame_num : Z) : list Z :=
  H (write_id_base s ++ PutUint64 frame_num).

(** The key material [exchange] derives from the two handshake secrets:
    [(writekey, write_id_base, readkey, read_id_base)]. *)
Definition exchange (mysecret othersecret : list Z)
  : list Z * list Z * list Z * list Z :=
  let salt := bytes_of_string "stream_reader_writer_keymaterial" in
  let reader_keymaterial := hkdf_New othersecret salt [] in
  let writer_keymaterial := hkdf_New mysecret salt [] in
  let '(wk, writer_keymaterial) := io_ReadFull keySize writer_keymaterial in
  let '(wid, _) := io_ReadFull 32 writer_keymaterial in
  let '(rk, reader_keymaterial) := io_ReadFull keySize reader_keymaterial in
  let '(rid, _) := io_ReadFull 32 reader_keymaterial in
  (wk, wid, rk, rid).

(** ** Time *)

Definition IsZero (t : Z) : bool := t =? 0.

(** [now.After(t)]. *)
Definition After (now t : Z) : bool := t <? now.

(** ** [bytes.Buffer] *)

(** [b.Read(p)] for a [p] of [n] bytes: the bytes copied, what stays in
    the buffer, and the error. *)
Definition Buffer_Read (n : Z) (buf : list Z) : list Z * list Z * option error :=
  match buf with
  | [] => ([], [], if n =? 0 then None else Some io_EOF)
  | _ => (take (Z.to_nat n) buf, drop (Z.to_nat n) buf, None)
  end.

(** ** The acknowledgement of received frames *)

(** The loop [for i, _ := range s.r.wack] of [processAck], over the keys in
    the order the iteration meets them. *)
Fixpoint processAck_range (keys : list Z) (ack : Z) (w : gset Z) (ackD : bool)
  : gset Z * bool :=
  match keys with
  | [] => (w, ackD)
  | i :: keys' =>
      if i <=? ack
      then processAck_range keys' ack (w ∖ {[ i ]}) true
      else processAck_range keys' ack w ackD
  end.

(** [processAck] with the iteration order of the map made explicit. *)
Definition processAck_in (keys : list Z) (frame : Frame) (s : Stream) : Stream :=
  let '(w, ackD) := processAck_range keys (Ack frame) (wack (r s)) false in
  let s := set_r {| wack := w |} s in
  if ackD then set_onAck true s else s.

Definition processAck (frame : Frame) (s : Stream) : Stream :=
  processAck_in (elements (wack (r s))) frame s.

(** ** The public interface: Read, Write, Close, deadlines *)

(** How a call of [Read] or [Write] leaves its first critical section. *)
Inductive entry :=
| Fail (e : error)          (* it returns [(0, e)] *)
| Block (timeout : Z)       (* it unlocks and waits in the [select] *)
| Pass.                     (* it goes on to the buffer *)

(** The case of the [select] of [Read] that fires. *)
Inductive read_event := RTimeout | RHalt | ROnRead.

Definition Read_begin (now : Z) (s : Stream) : entry :=
  if negb (IsZero (readDeadline s)) && After now (readDeadline s)
  then Fail os_ErrDeadlineExceeded
  else if decide (RState s = StreamClosed) then Fail io_EOF
  else if decide (WState s = StreamClosed /\ Mode s = ReliableStream) then Fail io_EOF
  else if len (readBuf s) =? 0
  then Block (if negb (IsZero (readDeadline s))
              then readDeadline s - now else defaultTimeout s)
  else Pass.

(** [n, err = s.readBuf.Read(p)] and the return of [Read]; [plen] is
    [len(p)].  The result is the stream, the bytes stored in [p], and
    [(n, err)]. *)
Definition Read_finish (plen : Z) (s : Stream)
  : Stream * list Z * (Z * option error) :=
  let '(data, rest, err) := Buffer_Read plen (readBuf s) in
  let n := len data in
  (set_readBuf rest s, data,
   (n, match err with
       | Some io_EOF => if 0 <? n then None else err
       | _ => err
       end)).

(** [Read] from the [select] on; [s] is the stream as the caller finds it
    when the select returns. *)
Definition Read_resume (ev : read_event) (plen : Z) (s : Stream)
  : Stream * list Z * (Z * option error) :=
  match ev with
  | RTimeout => (s, [], (0, Some io_EOF))
  | RHalt => (s, [], (0, Some io_EOF))
  | ROnRead => Read_finish plen (set_onRead false s)
  end.

(** [Read(p)].  [s] is the stream when the call takes the lock, [now] the
    clock, [ev] the case the select takes if the call waits and [s1] the
    stream at that moment ([s] itself when nothing ran in between). *)
Definition Read (now plen : Z) (ev : read_event) (s s1 : Stream)
  : Stream * list Z * (Z * option error) :=
  match Read_begin now s with
  | Fail e => (s, [], (0, Some e))
  | Block _ => Read_resume ev plen s1
  | Pass => Read_finish plen s
  end.

(** The case of the [select] of [Write] that fires. *)
Inductive write_event := WTimeout | WHalt | WOnStreamClose | WOnWrite.

Definition Write_begin (now : Z) (s : Stream) : entry :=
  if decide (WState s = StreamClosed \/ WState s = StreamClosing) then Fail io_EOF
  else if negb (IsZero (writeDeadline s)) && After now (writeDeadline s)
  then Fail os_ErrDeadlineExceeded
  else if max_writebuf_size s <=? len (writeBuf s)
  then Block (if negb (IsZero (writeDeadline s))
              then writeDeadline s - now else defaultTimeout s)
  else Pass.

(** [n, err := s.writeBuf.Write(p)], [s.doFlush()] and the return. *)
Definition Write_finish (p : list Z) (s : Stream) : Stream * (Z * option error) :=
  (doFlush (set_writeBuf (writeBuf s ++ p) s), (len p, None)).

Definition Write_resume (ev : write_event) (p : list Z) (s : Stream)
  : Stream * (Z * option error) :=
  match ev with
  | WTimeout => (s, (0, Some io_EOF))
  | WHalt => (s, (0, Some io_EOF))
  | WOnStreamClose => (set_onStreamClose false s, (0, Some io_EOF))
  | WOnWrite => Write_finish p (set_onWrite false s)
  end.

(** [Write(p)], with the arguments of [Read]. *)
Definition Write (now : Z) (p : list Z) (ev : write_event) (s s1 : Stream)
  : Stream * (Z * option error) :=
  match Write_begin now s with
  | Fail e => (s, (0, Some e))
  | Block _ => Write_resume ev p s1
  | Pass => Write_finish p s
  end.

(** [Close] up to its wait: the stream, and whether the call then waits
    for [onStreamClose]. *)
Definition Close (s : Stream) : Stream * bool :=
  let s := set_RState StreamClosed s in
  if decide (WState s = StreamOpen)
  then (set_WState StreamClosing s, true)
  else (s, false).

(** [<-s.onStreamClose] in [Close]. *)
Definition Close_resume (s : Stream) : Stream := set_onStreamClose false s.

Definition SetDeadline (t : Z) (s : Stream) : Stream :=
  set_onUpdateDeadline true (set_writeDeadline t (set_readDeadline t s)).

Definition SetReadDeadline (t : Z) (s : Stream) : Stream :=
  set_onUpdateDeadline true (set_readDeadline t s).

Definition SetWriteDeadline (t : Z) (s : Stream) : Stream :=
  set_onUpdateDeadline true (set_writeDeadline t s).

(** ** Transmission

    [PayloadSize] is [mClient.PayloadSize], the value size of the substrate,
    and [Period] is [epochtime.Period]; neither constant is among the
    sources, so both are parameters. *)

Section Transmission.

Variable PayloadSize : Z.
Variable Period : Z.

(** [init()]; [nonce] and [key] are its two random draws. *)
Definition init (nonce key : list Z) : Z :=
  let b := cbor_Marshal {| Type_ := StreamStart; id := 0; Ack := 0; Payload := None |} in
  let cborFrameOverhead := len b in
  let ciphertext := secretbox_Seal b nonce key in
  let secretboxOverhead := sealed_len ciphertext - len b in
  PayloadSize - nonceSize - cborFrameOverhead - secretboxOverhead.

(** The package variable [FramePayloadSize] once [init] has run. *)
Definition FramePayloadSize : Z := init (make nonceSize) (make keySize).

(** What one call of [txFrame] takes from outside: [til], the time left in
    the epoch ([epochtime.Now]); the nonce [rand.Reader] yields, or [None]
    when it fails; and whether the substrate's Put succeeds. *)
Record TxEnv := {
  til : Z;
  nonce : option (list Z);
  put_ok : bool;
}.

Definition txEnqueue (m : smsg) (s : Stream) : Stream :=
  let s := set_r {| wack := {[ id (f m) ]} ∪ wack (r s) |} s in
  set_tq (tq s ++ [m]) s.

(** The zero extension of the serialized frame in [txFrame]. *)
Definition zero_extend (serialized : list Z) : list Z :=
  if 0 <? FramePayloadSize - len serialized
  then serialized ++ make (FramePayloadSize - len serialized)
  else serialized.

(** The key and value [txFrame] hands to Put. *)
Definition txFrame_put (s : Stream) (frame : Frame) (nonce : list Z) : PutCall :=
  let serialized := zero_extend (cbor_Marshal frame) in
  let frame_id := txFrameID s (id frame) in
  let frame_key := txFrameKey s (id frame) in
  {| put_key := TID frame_id;
     put_value := Ciphertext nonce (secretbox_Seal serialized nonce frame_key);
     put_frame := frame |}.

Definition txFrame (env : TxEnv) (frame : Frame) (s : Stream) : Stream * option error :=
  let m := {| f := frame; priority := u64 (til env + 2 * Period) |} in
  let s := if f_ack_idx s <? Ack frame then set_f_ack_idx (Ack frame) s else s in
  match nonce env with
  | None => (s, Some ErrRand)
  | Some nonce =>
      if put_ok env then
        let s := set_c (txFrame_put s frame nonce :: c s) s in
        let s := set_f_write_idx (u64 (f_write_idx s + 1)) s in
        let s := if decide (Mode s = ReliableStream) then txEnqueue m s else s in
        (s, None)
      else (s, Some ErrPut)
  end.

(** [retx.Push], the callback of the timer queue. *)
Definition retx_Push (env : TxEnv) (m : smsg) (s : Stream) : Stream * option error :=
  if decide (id (f m) ∈ wack (r s))
  then txFrame env (f m) s
  else (s, None).

(** ** The reader worker *)

(** What [readFrame] makes of the substrate's answer: the Get fails, the
    box does not open or does not decode (the code panics), or the frame
    it holds. *)
Inductive fetched :=
| GetFailed
| Damaged
| Fetched (type : FrameType) (ack : Z) (payload : option (list Z)).

Inductive loop := Continue | Return | Panic.

Definition readFrame (got : fetched) (s : Stream) : option (option Frame) :=
  let idx := f_read_idx s in
  match got with
  | GetFailed => Some None
  | Damaged => None
  | Fetched t a p => Some (Some {| Type_ := t; id := idx; Ack := a; Payload := p |})
  end.

(** The end of an iteration of [reader], once a frame is read: the
    acknowledgements, the payload, the state and the signal. *)
Definition reader_accept (frame : Frame) (s : Stream) : Stream :=
  let s := processAck frame s in
  let s := set_readBuf (readBuf s ++ default [] (Payload frame)) s in
  let s := if decide (Type_ frame = StreamEnd)
           then set_RState StreamClosed s
           else set_f_read_idx (u64 (f_read_idx s + 1)) s in
  doOnRead s.

(** One iteration of the loop of [reader]. *)
Definition reader (got : fetched) (s : Stream) : Stream * loop :=
  if halted s then (s, Return)
  else
    match RState s with
    | StreamClosed =>
        let s := if decide (Mode s = ReliableStream)
                 then if f_ack_idx s <? f_read_idx s then doFlush s else s
                 else s in
        (s, Return)
    | st =>
        let s := match st with
                 | StreamOpen =>
                     if decide (Mode s = ReliableStream)
                     then if stream_window_size s <=? u64 (f_read_idx s - f_ack_idx s)
                          then doFlush s else s
                     else s
                 | _ => s
                 end in
        match readFrame got s with
        | None => (s, Panic)
        | Some None => (s, Continue)
        | Some (Some frame) => (reader_accept frame s, Continue)
        end
    end.

(** ** The writer worker *)

(** How an iteration of [writer] leaves its first critical section: it
    returns; it unlocks, to wait in the [select] when [mustWait]; or it
    goes on to send with the lock held. *)
Inductive decision :=
| Exit
| Pause (mustWait : bool)
| Send (mustAck mustTeardown : bool).

Definition writer_begin (s : Stream) : Stream * decision :=
  if halted s then (s, Exit)
  else
    match WState s with
    | StreamClosed => (set_onStreamClose true s, Exit)
    | _ =>
        if decide (Mode s = ReliableStream) then
          let mustAck := stream_window_size s <=? u64 (f_read_idx s - f_ack_idx s) in
          let closing :=
            bool_decide (RState s = StreamClosed \/ WState s = StreamClosing) in
          let mustTeardown := closing && (len (writeBuf s) =? 0) in
          let mustAck :=
            if closing && (0 <? u64 (f_read_idx s - f_ack_idx s)) then true else mustAck in
          if negb mustAck && negb mustTeardown then
            let mustWait := (stream_window_size s <=? Z.of_nat (size (wack (r s))))
                            || (len (writeBuf s) =? 0) in
            let mustWait :=
              if decide (WState s = StreamClosing) then false else mustWait in
            (s, Pause mustWait)
          else (s, Send mustAck mustTeardown)
        else (s, Send false false)
    end.

(** The frame an iteration assembles, in its last critical section. *)
Definition writer_frame (mustTeardown : bool) (s : Stream) : Stream * Frame :=
  let s := if mustTeardown then set_WState StreamClosed s else s in
  let '(data, rest, _) := Buffer_Read FramePayloadSize (writeBuf s) in
  (set_writeBuf rest s,
   {| Type_ := if mustTeardown then StreamEnd else StreamStart;
      id := f_write_idx s;
      Ack := f_read_idx s;
      Payload := Some data |}).

(** The rest of the iteration: the frame, [txFrame] and [doOnWrite]. *)
Definition writer_send (env : TxEnv) (mustAck mustTeardown : bool) (s : Stream)
  : Stream * loop :=
  let '(s, frame) := writer_frame mustTeardown s in
  if FramePayloadSize <? 0 then (s, Panic)    (* [make] of a negative length *)
  else if (0 <? len (default [] (Payload frame))) || mustAck || mustTeardown then
    match txFrame env frame s with
    | (s, Some _) => (s, Panic)
    | (s, None) => (doOnWrite s, Continue)
    end
  else (s, Continue).

(** The case of the [select] of [writer] that fires. *)
Inductive writer_event := OnFlush | OnAck | HaltCh.

(** An iteration from the [select] on. *)
Definition writer_wake (ev : writer_event) (env : TxEnv) (s : Stream) : Stream * loop :=
  match ev with
  | OnFlush => writer_send env false false (set_onFlush false s)
  | OnAck => writer_send env false false (set_onAck false s)
  | HaltCh => (s, Return)
  end.

(** ** Construction *)

Definition NewStream (mysecret theirsecret : list Z) : Stream :=
  let '(wk, wid, rk, rid) := exchange mysecret theirsecret in
  {| c := []; halted := false;
     writekey := wk; readkey := rk; write_id_base := wid; read_id_base := rid;
     writeBuf := []; readBuf := [];
     f_read_idx := 0; f_write_idx := 0; f_ack_idx := 0;
     tq := []; r := {| wack := ∅ |};
     stream_window_size := 3;
     max_writebuf_size := 42 * FramePayloadSize;
     Mode := ReliableStream; RState := StreamOpen; WState := StreamOpen;
     readDeadline := 0; writeDeadline := 0;
     defaultTimeout := 5 * 60 * 1000000000;
     onFlush := false; onAck := false; onWrite := false; onRead := false;
     onStreamClose := false; onUpdateDeadline := false |}.

(** ** The stream and its threads

    A [System] is the stream together with where its two workers stand.
    An [op] is one step of one thread: a worker's iteration (the writer's
    in two steps when it unlocks in between), a firing of the timer queue,
    or a call of the public interface (the part after a wait as a step of
    its own).  [exec] is [None] when the step cannot be taken: a receive
    from a channel needs a pending signal, a halt case needs the halt, and
    nothing runs after a panic. *)

Inductive writer_pc :=
| AtLoop                     (* at the head of the loop *)
| Paused (mustWait : bool)   (* unlocked, before the frame is assembled *)
| WriterDone.

Inductive reader_pc := AtRead | ReaderDone.

Record System := {
  stream : Stream;
  writer_at : writer_pc;
  reader_at : reader_pc;
  panicked : bool;
}.

Inductive op :=
| OpWriter (env : TxEnv)
| OpWriterGo (env : TxEnv)
| OpWriterWake (ev : writer_event) (env : TxEnv)
| OpReader (got : fetched)
| OpTimer (k : nat) (env : TxEnv)
| OpRead (now plen : Z) (ev : read_event)
| OpReadWake (ev : read_event) (plen : Z)
| OpWrite (now : Z) (p : list Z) (ev : write_event)
| OpWriteWake (ev : write_event) (p : list Z)
| OpClose
| OpCloseWake
| OpSetDeadline (t : Z)
| OpSetReadDeadline (t : Z)
| OpSetWriteDeadline (t : Z)
| OpHalt.

Definition with_stream (sys : System) (s : Stream) : System :=
  {| stream := s; writer_at := writer_at sys; reader_at := reader_at sys;
     panicked := panicked sys |}.

Definition writer_to (sys : System) (sl : Stream * loop) : System :=
  {| stream := sl.1;
     writer_at := match sl.2 with Continue => AtLoop | _ => WriterDone end;
     reader_at := reader_at sys;
     panicked := match sl.2 with Panic => true | _ => panicked sys end |}.

Definition reader_to (sys : System) (sl : Stream * loop) : System :=
  {| stream := sl.1;
     writer_at := writer_at sys;
     reader_at := match sl.2 with Continue => AtRead | _ => ReaderDone end;
     panicked := match sl.2 with Panic => true | _ => panicked sys end |}.

Definition read_ready (ev : read_event) (s : Stream) : bool :=
  match ev with RTimeout => true | RHalt => halted s | ROnRead => onRead s end.

Definition write_ready (ev : write_event) (s : Stream) : bool :=
  match ev with
  | WTimeout => true
  | WHalt => halted s
  | WOnStreamClose => onStreamClose s
  | WOnWrite => onWrite s
  end.

Definition writer_ready (ev : writer_event) (s : Stream) : bool :=
  match ev with OnFlush => onFlush s | OnAck => onAck s | HaltCh => halted s end.

Definition exec (o : op) (sys : System) : option System :=
  let s := stream sys in
  if panicked sys then None
  else
    match o with
    | OpWriter env =>
        match writer_at sys with
        | AtLoop =>
            match writer_begin s with
            | (s, Exit) => Some (writer_to sys (s, Return))
            | (s, Pause mustWait) =>
                Some {| stream := s; writer_at := Paused mustWait;
                        reader_at := reader_at sys; panicked := false |}
            | (s, Send mustAck mustTeardown) =>
                Some (writer_to sys (writer_send env mustAck mustTeardown s))
            end
        | _ => None
        end
    | OpWriterGo env =>
        match writer_at sys with
        | Paused false => Some (writer_to sys (writer_send env false false s))
        | _ => None
        end
    | OpWriterWake ev env =>
        match writer_at sys with
        | Paused true =>
            if writer_ready ev s then Some (writer_to sys (writer_wake ev env s)) else None
        | _ => None
        end
    | OpReader got =>
        match reader_at sys with
        | AtRead => Some (reader_to sys (reader got s))
        | ReaderDone => None
        end
    | OpTimer k env =>
        match tq s !! k with
        | Some m => Some (with_stream sys (retx_Push env m (set_tq (delete k (tq s)) s)).1)
        | None => None
        end
    | OpRead now plen ev =>
        match Read_begin now s with
        | Block _ => if read_ready ev s then Some (with_stream sys (Read now plen ev s s).1.1)
                     else None
        | _ => Some (with_stream sys (Read now plen ev s s).1.1)
        end
    | OpReadWake ev plen =>
        if read_ready ev s then Some (with_stream sys (Read_resume ev plen s).1.1) else None
    | OpWrite now p ev =>
        match Write_begin now s with
        | Block _ => if write_ready ev s then Some (with_stream sys (Write now p ev s s).1)
                     else None
        | _ => Some (with_stream sys (Write now p ev s s).1)
        end
    | OpWriteWake ev p =>
        if write_ready ev s then Some (with_stream sys (Write_resume ev p s).1) else None
    | OpClose => Some (with_stream sys (Close s).1)
    | OpCloseWake =>
        if onStreamClose s then Some (with_stream sys (Close_resume s)) else None
    | OpSetDeadline t => Some (with_stream sys (SetDeadline t s))
    | OpSetReadDeadline t => Some (with_stream sys (SetReadDeadline t s))
    | OpSetWriteDeadline t => Some (with_stream sys (SetWriteDeadline t s))
    | OpHalt => Some (with_stream sys (set_halted true s))
    end.

(** The stream as [NewStream] returns it, its two workers started. *)
Definition start (mysecret theirsecret : list Z) : System :=
  {| stream := NewStream mysecret theirsecret;
     writer_at := AtLoop; reader_at := AtRead; panicked := false |}.

Fixpoint run (ops : list op) (sys : System) : option System :=
  match ops with
  | [] => Some sys
  | o :: ops' =>
      match exec o sys with
      | Some sys' => run ops' sys'
      | None => None
      end
  end.

(** The states of the executions of a stream. *)
Inductive reachable : System -> Prop :=
| reachable_start mysecret theirsecret :
    reachable (start mysecret theirsecret)
| reachable_exec o sys sys' :
    reachable sys -> exec o sys = Some sys' -> reachable sys'.

End Transmission.


(** ** Notions the properties are stated with *)

(** The two frame counters are below the largest [uint64]: the next
    increment does not wrap around. *)
Definition before_wrap (s : Stream) : Prop :=
  f_read_idx s < 2 ^ 64 - 1 /\ f_write_idx s < 2 ^ 64 - 1.

(** The states of the executions in which no step is taken from a state
    whose counters are at the largest [uint64]. *)
Inductive reachable_before_wrap (PayloadSize Period : Z) : System -> Prop :=
| before_wrap_start mysecret theirsecret :
    reachable_before_wrap PayloadSize Period (start PayloadSize mysecret theirsecret)
| before_wrap_exec o sys sys' :
    reachable_before_wrap PayloadSize Period sys ->
    before_wrap (stream sys) ->
    exec PayloadSize Period o sys = Some sys' ->
    reachable_before_wrap PayloadSize Period sys'.

(** The frames of the stream: those it has published and those it holds
    for retransmission. *)
Definition published (s : Stream) : list Frame := put_frame <$> c s.
Definition queued (s : Stream) : list Frame := f <$> tq s.

(** The acknowledgements sent and held do not run ahead of the reader. *)
Definition acks_behind (s : Stream) : Prop :=
  0 <= f_ack_idx s <= f_read_idx s
  /\ 0 <= f_write_idx s
  /\ Forall (fun m => Ack (f m) <= f_read_idx s) (tq s).

(** No frame of kind End before the write half is Closed, and never two
    different ones. *)
Definition one_end (s : Stream) : Prop :=
  (WState s <> StreamClosed ->
   forall x, x ∈ published s ++ queued s -> Type_ x <> StreamEnd)
  /\ (forall x y, x ∈ published s ++ queued s -> y ∈ published s ++ queued s ->
                  Type_ x = StreamEnd -> Type_ y = StreamEnd -> x = y).

(** Two streams that agree on what transmission reads and writes. *)
Definition same_tx (s s' : Stream) : Prop :=
  c s' = c s /\ tq s' = tq s /\ r s' = r s
  /\ f_read_idx s' = f_read_idx s /\ f_write_idx s' = f_write_idx s
  /\ f_ack_idx s' = f_ack_idx s /\ WState s' = WState s /\ Mode s' = Mode s.

(** What a step of the system does to the stream: nothing that
    transmission reads; a [Close]; an iteration of the reader; the sending
    part of an iteration of the writer (with a teardown only when the
    write half is not Closed); or a firing of the timer queue. *)
Inductive step_kind (PayloadSize Period : Z) (s s' : Stream) : Prop :=
| step_quiet : same_tx s s' -> step_kind PayloadSize Period s s'
| step_close : s' = (Close s).1 -> step_kind PayloadSize Period s s'
| step_reader got : s' = (reader got s).1 -> step_kind PayloadSize Period s s'
| step_send env mustAck mustTeardown s1 :
    same_tx s s1 ->
    (mustTeardown = true -> WState s1 <> StreamClosed) ->
    s' = (writer_send PayloadSize Period env mustAck mustTeardown s1).1 ->
    step_kind PayloadSize Period s s'
| step_timer k m env :
    tq s !! k = Some m ->
    s' = (retx_Push PayloadSize Period env m (set_tq (delete k (tq s)) s)).1 ->
    step_kind PayloadSize Period s s'.

(** [run], refusing to step from a state of which a counter is at the
    largest [uint64]. *)
Definition before_wrapb (s : Stream) : bool :=
  (f_read_idx s <? 2 ^ 64 - 1) && (f_write_idx s <? 2 ^ 64 - 1).

Fixpoint run_before_wrap (PayloadSize Period : Z) (ops : list op) (sys : System)
  : option System :=
  match ops with
  | [] => Some sys
  | o :: ops' =>
      if before_wrapb (stream sys) then
        match exec PayloadSize Period o sys with
        | Some sys' => run_before_wrap PayloadSize Period ops' sys'
        | None => None
        end
      else None
  end.

(** The stream a call of [Write] appends to: the one it finds at the call
    or, when it waited, after the wait. *)
Definition Write_at (now : Z) (s s1 : Stream) : Stream :=
  match Write_begin now s with Block _ => s1 | _ => s end.

(** A step moves each counter by nothing or by one 64-bit increment, and
    keeps [acks_behind] unless [f_read_idx] was at the largest [uint64]. *)
Definition counters_step (s s' : Stream) : Prop :=
  (f_read_idx s' = f_read_idx s \/ f_read_idx s' = u64 (f_read_idx s + 1))
  /\ (f_write_idx s' = f_write_idx s \/ f_write_idx s' = u64 (f_write_idx s + 1))
  /\ (f_read_idx s < 2 ^ 64 - 1 -> acks_behind s').

(** A stream that holds one outstanding frame in its timer queue, at a
    given value of [f_write_idx]. *)
Definition retransmitting (PayloadSize Period : Z) (n : Z) (sys : System) : Prop :=
  reachable PayloadSize Period sys
  /\ panicked sys = false
  /\ Mode (stream sys) = ReliableStream
  /\ f_write_idx (stream sys) = u64 n
  /\ exists m, tq (stream sys) = [m] /\ id (f m) ∈ wack (r (stream sys)).
(** ** Concrete inputs

    A substrate with values of 1000 bytes, an epoch period of 7 time
    units, and a stream made from the secrets [[1]] and [[2]]. *)

Definition P1000 : Z := 1000.
Definition Period7 : Z := 7.

Definition stream0 : Stream := NewStream P1000 [1] [2].
Definition system0 : System := start P1000 [1] [2].

(** An environment in which the nonce is drawn and Put succeeds, and one
    in which Put fails. *)
Definition env_ok : TxEnv := {| til := 5; nonce := Some (make nonceSize); put_ok := true |}.
Definition env_put_fails : TxEnv := {| til := 5; nonce := Some (make nonceSize); put_ok := false |}.

(** A frame acknowledging up to index 2, received while the indices 1, 2
    and 5 are outstanding. *)
Definition frame_ack2 : Frame :=
  {| Type_ := StreamData; id := 0; Ack := 2; Payload := Some [120] |}.

Definition stream_125 : Stream := set_r {| wack := {[ 1; 2; 5 ]} |} stream0.

(** A stream with three bytes to read and a read deadline at time 100,
    and one with a full write buffer and a write deadline at time 100. *)
Definition stream_rd100 : Stream :=
  set_readDeadline 100 (set_readBuf [104; 105; 33] stream0).

Definition stream_rd100_empty : Stream := set_readDeadline 100 stream0.

Definition stream_wd100_full : Stream :=
  set_writeDeadline 100 (set_writeBuf (make (42 * 939)) stream0).

(** A frame that only acknowledges, and one whose payload has the whole
    [FramePayloadSize] of 939 bytes. *)
Definition frame_ack_only : Frame :=
  {| Type_ := StreamStart; id := 4; Ack := 4; Payload := Some [] |}.

Definition frame_full : Frame :=
  {| Type_ := StreamStart; id := 0; Ack := 0; Payload := Some (make 939) |}.

(** The stream after its first frame: one byte written and published as
    frame 0, which is outstanding and in the timer queue. *)
Definition first_frame : list op :=
  [OpWrite 0 [97] WTimeout; OpWriter env_ok; OpWriterGo env_ok].

Definition system1 : System :=
  default system0 (run P1000 Period7 first_frame system0).

Definition stream1 : Stream := stream system1.

Definition smsg0 : smsg := default {| f := frame_full; priority := 0 |} (tq stream1 !! 0%nat).

(** The stream with one byte written, and then with the writer past its
    first critical section. *)
Definition system_written : System :=
  default system0 (run P1000 Period7 [OpWrite 0 [97] WTimeout] system0).

Definition system_paused : System :=
  default system0 (run P1000 Period7 [OpWrite 0 [97] WTimeout; OpWriter env_ok] system0).

(** A frame of the peer that carries one byte and acknowledges nothing
    beyond index 0. *)
Definition peer_frame : op := OpReader (Fetched StreamData 0 (Some [120])).

(** Three frames published and still outstanding, then [Close] and an
    iteration of the writer. *)
Definition ops_teardown : list op :=
  first_frame ++ first_frame ++ first_frame ++ [OpClose; OpWriter env_ok].

(** Three frames published, one frame of the peer read (it acknowledges
    index 0), a fourth frame published, three more frames of the peer read,
    and an iteration of the writer. *)
Definition ops_ack : list op :=
  first_frame ++ first_frame ++ first_frame ++ [peer_frame] ++ first_frame
  ++ [peer_frame; peer_frame; peer_frame; OpWriter env_ok].

Definition system_teardown : System :=
  default system0 (run P1000 Period7 ops_teardown system0).

Definition system_ack : System :=
  default system0 (run P1000 Period7 ops_ack system0).

(** The stream after [Close]: the write half is Closing, nothing is
    written, and the writer is at the head of its loop. *)
Definition system_closing : System :=
  default system0 (run P1000 Period7 [OpClose] system0).

(** The same after an iteration of the writer in which Put fails. *)
Definition system_failed_end : System :=
  default system0 (run P1000 Period7 [OpClose; OpWriter env_put_fails] system0).

(** The same after an iteration of the writer in which Put succeeds. *)
Definition system_end : System :=
  default system0 (run P1000 Period7 [OpClose; OpWriter env_ok] system0).

(** * Properties *)

#[global] Arguments H : simpl never.
#[global] Arguments TID : simpl never.
#[global] Arguments SHA256.Sum256 : simpl never.
#[global] Arguments hmac_sha256 : simpl never.
#[global] Arguments hkdf_New : simpl never.
#[global] Arguments hkdf_fill : simpl never.
#[global] Arguments cbor_Marshal : simpl never.
#[global] Arguments u64 : simpl never.

(** The projections and the assignments of [Stream], for [cbn]. *)
Ltac sim :=
  cbn [c halted writekey readkey write_id_base read_id_base writeBuf readBuf
       f_read_idx f_write_idx f_ack_idx tq r wack stream_window_size
       max_writebuf_size Mode RState WState readDeadline writeDeadline
       defaultTimeout onFlush onAck onWrite onRead onStreamClose onUpdateDeadline
       set_c set_halted set_writeBuf set_readBuf set_f_read_idx set_f_write_idx
       set_f_ack_idx set_tq set_r set_RState set_WState set_readDeadline
       set_writeDeadline set_onFlush set_onAck set_onWrite set_onRead
       set_onStreamClose set_onUpdateDeadline doFlush doOnRead doOnWrite
       stream writer_at reader_at panicked with_stream writer_to reader_to
       fst snd Type_ id Ack Payload f priority] in *.

(** ** Big-endian encoding *)

Lemma byte_mod (x : Z) : byte x = x mod 256.
Proof.
  unfold byte. change 255 with (Z.ones 8).
  rewrite Z.land_ones by lia. reflexivity.
Qed.

Lemma byte_is_byte (x : Z) : is_byte (byte x).
Proof. rewrite byte_mod. unfold is_byte. apply Z.mod_pos_bound. lia. Qed.

(** [PutUint64] writes the eight base-256 digits, whatever the value. *)
Lemma PutUint64_be64 (v : Z) : PutUint64 v = be64 v.
Proof.
  unfold PutUint64, be64. cbn [map].
  rewrite !byte_mod, !Z.shiftr_div_pow2 by lia.
  repeat f_equal. simpl. rewrite Z.div_1_r. reflexivity.
Qed.

Lemma be64_is_bytes (n : Z) : Forall is_byte (be64 n).
Proof.
  rewrite <- PutUint64_be64. unfold PutUint64.
  repeat (apply Forall_cons; split; [apply byte_is_byte|]). apply Forall_nil_2.
Qed.

(** The digits of a 64-bit number denote that number. *)
Lemma be_value_be64 (n : Z) : 0 <= n < 2 ^ 64 -> be_value (be64 n) = n.
Proof.
  intros Hn. unfold be_value, be64. cbn [map fold_left].
  change (7 - 0) with 7. change (7 - 1) with 6. change (7 - 2) with 5.
  change (7 - 3) with 4. change (7 - 4) with 3. change (7 - 5) with 2.
  change (7 - 6) with 1. change (7 - 7) with 0.
  Z.div_mod_to_equations. lia.
Qed.

(** ** The key and identifier schedule *)

(** C7.  For every 64-bit frame index [n], the send identifier is
    SHA-256(write_id_base ‖ be64(n)) and the send key is
    SHA-256(writekey ‖ be64(n)); the receive identifier and key are the
    same functions of [read_id_base] and [readkey]; [be64 n] is the 8-byte
    big-endian representation of [n]; and of two streams made from the
    same two secrets in opposite roles, each computes for its receive side
    what the other computes for its send side. *)
Theorem frame_schedule (s : Stream) (n : Z) :
  0 <= n < 2 ^ 64 ->
  (txFrameID s n = SHA256.Sum256 (write_id_base s ++ be64 n)
   /\ txFrameKey s n = SHA256.Sum256 (writekey s ++ be64 n)
   /\ rxFrameID s n = SHA256.Sum256 (read_id_base s ++ be64 n)
   /\ rxFrameKey s n = SHA256.Sum256 (readkey s ++ be64 n))
  /\ (length (be64 n) = 8%nat /\ Forall is_byte (be64 n) /\ be_value (be64 n) = n)
  /\ (forall (P P' : Z) (a b : list Z),
        txFrameID (NewStream P a b) n = rxFrameID (NewStream P' b a) n
        /\ txFrameKey (NewStream P a b) n = rxFrameKey (NewStream P' b a) n
        /\ rxFrameID (NewStream P a b) n = txFrameID (NewStream P' b a) n
        /\ rxFrameKey (NewStream P a b) n = txFrameKey (NewStream P' b a) n).
Proof.
  intros Hn. split; [|split].
  - unfold txFrameID, txFrameKey, rxFrameID, rxFrameKey, H.
    rewrite PutUint64_be64. auto.
  - split; [reflexivity|]. split; [apply be64_is_bytes|]. apply be_value_be64, Hn.
  - intros P P' a b.
    unfold txFrameID, txFrameKey, rxFrameID, rxFrameKey, NewStream, exchange, io_ReadFull.
    cbn [write_id_base read_id_base writekey readkey]. auto.
Qed.

Lemma frame_schedule_witness :
  txFrameID stream0 5 = SHA256.Sum256 (write_id_base stream0 ++ be64 5)
  /\ be_value (be64 5) = 5.
Proof.
  pose proof (frame_schedule stream0 5 ltac:(lia)) as [[Hid _] [[_ [_ Hv]] _]].
  split; assumption.
Defined.

(** ** Acknowledgements *)

(** The loop of [processAck] removes from [w] the keys it meets that are
    at most [ack], and raises its flag when it meets one. *)
Lemma processAck_range_spec (keys : list Z) (ack : Z) (w : gset Z) (ackD : bool) :
  (forall i, i ∈ (processAck_range keys ack w ackD).1 <->
             i ∈ w /\ ~ (i ∈ keys /\ i <= ack))
  /\ ((processAck_range keys ack w ackD).2 = true <->
      ackD = true \/ exists i, i ∈ keys /\ i <= ack).
Proof.
  revert w ackD. induction keys as [|k keys IH]; intros w ackD; cbn [processAck_range].
  - split.
    + intros i. cbn [fst]. rewrite elem_of_nil. tauto.
    + cbn [snd]. split; [auto|]. intros [Hd|[i [Hi _]]]; [assumption|].
      apply elem_of_nil in Hi. contradiction.
  - destruct (Z.leb_spec k ack) as [Hle|Hgt].
    + destruct (IH (w ∖ {[k]}) true) as [IHw IHd]. split.
      * intros i. rewrite IHw, elem_of_difference, elem_of_singleton, elem_of_cons.
        split.
        -- intros [[Hw Hne] Hn]. split; [assumption|].
           intros [[->|Hk] Hi]; [contradiction|]. apply Hn. auto.
        -- intros [Hw Hn]. split; [split; [assumption|]|].
           ++ intros ->. apply Hn. auto.
           ++ intros [Hk Hi]. apply Hn. auto.
      * rewrite IHd. split; [|auto]. intros _. right. exists k.
        rewrite elem_of_cons. auto.
    + destruct (IH w ackD) as [IHw IHd]. split.
      * intros i. rewrite IHw, elem_of_cons. split.
        -- intros [Hw Hn]. split; [assumption|].
           intros [[->|Hk] Hi]; [lia|]. apply Hn. auto.
        -- intros [Hw Hn]. split; [assumption|]. intros [Hk Hi]. apply Hn. auto.
      * rewrite IHd. split.
        -- intros [Hd|[i [Hk Hi]]]; [auto|]. right. exists i. rewrite elem_of_cons. auto.
        -- intros [Hd|[i [Hk Hi]]]; [auto|]. right. exists i.
           apply elem_of_cons in Hk as [->|Hk]; [lia|]. auto.
Qed.

(** C8.  When the reader processes a received frame, whatever the order
    in which the loop meets the indices of the outstanding set: an index
    is in the set afterwards exactly when it was in it and is greater
    than the frame's Ack; the loop's flag is raised exactly when some
    index of the set was at most the Ack (some index was deleted); and
    [onAck] holds a signal afterwards when it held one or the flag was
    raised. *)
Theorem processAck_deletes_acked (frame : Frame) (s : Stream) (keys : list Z) :
  keys ≡ₚ elements (wack (r s)) ->
  let s' := processAck_in keys frame s in
  let ackD := (processAck_range keys (Ack frame) (wack (r s)) false).2 in
  (forall i, i ∈ wack (r s') <-> i ∈ wack (r s) /\ Ack frame < i)
  /\ (ackD = true <-> exists i, i ∈ wack (r s) /\ i <= Ack frame)
  /\ (ackD = true <-> wack (r s') <> wack (r s))
  /\ onAck s' = onAck s || ackD
  /\ processAck frame s = processAck_in (elements (wack (r s))) frame s.
Proof.
  intros Hperm s' ackD.
  assert (Hmem : forall i, i ∈ keys <-> i ∈ wack (r s)).
  { intros i. rewrite Hperm. apply elem_of_elements. }
  destruct (processAck_range_spec keys (Ack frame) (wack (r s)) false) as [Hw Hd].
  assert (Hset : wack (r s') = (processAck_range keys (Ack frame) (wack (r s)) false).1).
  { subst s'. unfold processAck_in.
    destruct (processAck_range keys (Ack frame) (wack (r s)) false) as [w [|]];
      reflexivity. }
  assert (Hin : forall i, i ∈ wack (r s') <-> i ∈ wack (r s) /\ Ack frame < i).
  { intros i. rewrite Hset, Hw, Hmem. split.
    - intros [Hi Hn]. split; [assumption|].
      destruct (Z.le_gt_cases i (Ack frame)); [exfalso; auto|lia].
    - intros [Hi Hlt]. split; [assumption|]. intros [_ Hle]. lia. }
  assert (Hex : ackD = true <-> exists i, i ∈ wack (r s) /\ i <= Ack frame).
  { subst ackD. rewrite Hd. split.
    - intros [Hf|[i [Hk Hi]]]; [discriminate|]. exists i. rewrite <- Hmem. auto.
    - intros [i [Hk Hi]]. right. exists i. rewrite Hmem. auto. }
  split; [exact Hin|]. split; [exact Hex|]. split; [|split].
  - rewrite Hex. split.
    + intros [i [Hi Hle]] Heq. rewrite <- Heq in Hi. apply Hin in Hi. lia.
    + intros Hne. destruct (decide (exists i, i ∈ wack (r s) /\ i <= Ack frame))
        as [Hyes|Hno]; [assumption|].
      exfalso. apply Hne. apply set_eq. intros i. rewrite Hin. split; [tauto|].
      intros Hi. split; [assumption|].
      destruct (Z.le_gt_cases i (Ack frame)); [|lia]. exfalso. apply Hno. eauto.
  - subst s' ackD. unfold processAck_in.
    destruct (processAck_range keys (Ack frame) (wack (r s)) false) as [w [|]]; sim.
    + rewrite orb_true_r. reflexivity.
    + rewrite orb_false_r. reflexivity.
  - reflexivity.
Qed.

Lemma processAck_deletes_acked_witness :
  let s' := processAck_in (elements (wack (r stream_125))) frame_ack2 stream_125 in
  let ackD := (processAck_range (elements (wack (r stream_125))) 2
                 (wack (r stream_125)) false).2 in
  (forall i, i ∈ wack (r s') <-> i ∈ wack (r stream_125) /\ 2 < i)
  /\ (ackD = true <-> exists i, i ∈ wack (r stream_125) /\ i <= 2)
  /\ (ackD = true <-> wack (r s') <> wack (r stream_125))
  /\ onAck s' = onAck stream_125 || ackD
  /\ processAck frame_ack2 stream_125 =
     processAck_in (elements (wack (r stream_125))) frame_ack2 stream_125.
Proof.
  apply (processAck_deletes_acked frame_ack2 stream_125
           (elements (wack (r stream_125)))).
  reflexivity.
Defined.

Example processAck_125 :
  elements (wack (r (processAck frame_ack2 stream_125))) = [5]
  /\ onAck (processAck frame_ack2 stream_125) = true.
Proof. vm_compute. split; reflexivity. Qed.

(** ** Read and Write *)

(** C9.  A call of [Read] made while the read deadline is set and already
    past returns [(0, os.ErrDeadlineExceeded)], stores no byte and leaves
    the stream, its read buffer included, as it was, whatever the buffer
    holds. *)
Theorem Read_past_deadline (now plen : Z) (ev : read_event) (s s1 : Stream) :
  readDeadline s <> 0 ->
  readDeadline s < now ->
  Read now plen ev s s1 = (s, [], (0, Some os_ErrDeadlineExceeded)).
Proof.
  intros Hnz Hpast. unfold Read, Read_begin, IsZero, After.
  destruct (Z.eqb_spec (readDeadline s) 0) as [|_]; [contradiction|].
  destruct (Z.ltb_spec (readDeadline s) now) as [_|]; [|lia].
  reflexivity.
Qed.

Lemma Read_past_deadline_witness :
  Read 101 3 ROnRead stream_rd100 stream_rd100
  = (stream_rd100, [], (0, Some os_ErrDeadlineExceeded))
  /\ readBuf stream_rd100 = [104; 105; 33].
Proof.
  split; [|reflexivity].
  apply (Read_past_deadline 101 3 ROnRead stream_rd100 stream_rd100).
  - vm_compute. discriminate.
  - vm_compute. reflexivity.
Defined.

(** C10.  Every call of [Write] either appends the whole of [p] to the
    write buffer and returns [(len(p), nil)], or returns [(0, err)] with an
    error and the write buffer as it was; and it is the latter exactly
    when the write half is Closed or Closing, or the write deadline is set
    and past, or the buffer is full and the wait ends by the timeout, the
    halt or the close signal. *)
Theorem Write_all_or_nothing (now : Z) (p : list Z) (ev : write_event) (s s1 : Stream) :
  let res := Write now p ev s s1 in
  let s0 := Write_at now s s1 in
  ((res.2 = (len p, None) /\ writeBuf res.1 = writeBuf s0 ++ p)
   \/ (exists e, res.2 = (0, Some e) /\ writeBuf res.1 = writeBuf s0))
  /\ (res.2.2 <> None <->
      (WState s = StreamClosed \/ WState s = StreamClosing)
      \/ (writeDeadline s <> 0 /\ writeDeadline s < now)
      \/ (max_writebuf_size s <= len (writeBuf s) /\ ev <> WOnWrite)).
Proof.
  unfold Write, Write_at, Write_begin, IsZero, After.
  destruct (decide (WState s = StreamClosed \/ WState s = StreamClosing)) as [Hc|Hc].
  { cbn. split; [right; eauto|]. split; [auto|discriminate]. }
  destruct (Z.eqb_spec (writeDeadline s) 0) as [Hz|Hz];
    destruct (Z.ltb_spec (writeDeadline s) now) as [Hl|Hl]; cbn [negb andb].
  all: try (cbn; split; [right; eauto|]; split; [auto|discriminate]).
  all: destruct (Z.leb_spec (max_writebuf_size s) (len (writeBuf s))) as [Hf|Hf].
  all: try (cbn; split; [left; split; reflexivity|];
            split; [intros Hn; contradiction|]; intros [?|[[? ?]|[? ?]]]; [tauto|lia..]).
  all: destruct ev; cbn; split;
    try (right; eexists; split; reflexivity);
    try (left; split; reflexivity);
    try (split; [intros _; right; right; split; [assumption|discriminate]|discriminate]).
  all: split; [intros Hn; contradiction|]; intros [?|[[? ?]|[? ?]]]; [tauto|lia|contradiction].
Qed.

(** C2 (as the code has it).  A call of [Read] that waits under a read
    deadline, and whose wait ends because the deadline elapses (the
    [time.After] case of its [select]), returns [(0, io.EOF)], and so does
    a call of [Write] that waits under a write deadline: only a deadline
    already past at the call yields [os.ErrDeadlineExceeded]. *)
Theorem deadline_elapsing_in_wait_is_EOF (now : Z) (s s1 : Stream) :
  (forall plen,
     readDeadline s <> 0 -> now <= readDeadline s ->
     RState s <> StreamClosed -> WState s <> StreamClosed ->
     readBuf s = [] ->
     Read_begin now s = Block (readDeadline s - now)
     /\ Read now plen RTimeout s s1 = (s1, [], (0, Some io_EOF)))
  /\ (forall p,
        writeDeadline s <> 0 -> now <= writeDeadline s ->
        WState s = StreamOpen ->
        max_writebuf_size s <= len (writeBuf s) ->
        Write_begin now s = Block (writeDeadline s - now)
        /\ Write now p WTimeout s s1 = (s1, (0, Some io_EOF))).
Proof.
  split.
  - intros plen Hnz Hnow HR HW Hbuf.
    assert (Hb : Read_begin now s = Block (readDeadline s - now)).
    { unfold Read_begin, IsZero, After. rewrite Hbuf.
      destruct (Z.eqb_spec (readDeadline s) 0) as [|_]; [contradiction|].
      destruct (Z.ltb_spec (readDeadline s) now) as [|_]; [lia|].
      cbn [negb andb].
      destruct (decide (RState s = StreamClosed)) as [|_]; [contradiction|].
      destruct (decide (WState s = StreamClosed /\ Mode s = ReliableStream))
        as [[? _]|_]; [contradiction|].
      reflexivity. }
    split; [exact Hb|]. unfold Read. rewrite Hb. reflexivity.
  - intros p Hnz Hnow HW Hfull.
    assert (Hb : Write_begin now s = Block (writeDeadline s - now)).
    { unfold Write_begin, IsZero, After.
      destruct (decide (WState s = StreamClosed \/ WState s = StreamClosing))
        as [[Hc|Hc]|_]; [congruence..|].
      destruct (Z.eqb_spec (writeDeadline s) 0) as [|_]; [contradiction|].
      destruct (Z.ltb_spec (writeDeadline s) now) as [|_]; [lia|].
      cbn [negb andb].
      destruct (Z.leb_spec (max_writebuf_size s) (len (writeBuf s))) as [_|]; [|lia].
      reflexivity. }
    split; [exact Hb|]. unfold Write. rewrite Hb. reflexivity.
Qed.

Lemma deadline_elapsing_in_wait_is_EOF_witness :
  Read 50 3 RTimeout stream_rd100_empty stream_rd100_empty
  = (stream_rd100_empty, [], (0, Some io_EOF))
  /\ Write 50 [97] WTimeout stream_wd100_full stream_wd100_full
     = (stream_wd100_full, (0, Some io_EOF)).
Proof.
  pose proof (deadline_elapsing_in_wait_is_EOF 50 stream_rd100_empty stream_rd100_empty)
    as [HR _].
  pose proof (deadline_elapsing_in_wait_is_EOF 50 stream_wd100_full stream_wd100_full)
    as [_ HW].
  split.
  - apply (HR 3); vm_compute; try discriminate; reflexivity.
  - apply (HW [97]); vm_compute; try discriminate; reflexivity.
Defined.

(** ** The size of what is put *)

Lemma len_app {A} (l k : list A) : len (l ++ k) = len l + len k.
Proof. unfold len. rewrite length_app. lia. Qed.

Lemma len_nonneg {A} (l : list A) : 0 <= len l.
Proof. unfold len. lia. Qed.

Lemma len_make (n : Z) : 0 <= n -> len (make n) = n.
Proof. intros Hn. unfold len, make. rewrite length_replicate. lia. Qed.

(** The head of a CBOR item takes 1, 2, 3, 5 or 9 bytes. *)
Lemma cbor_head_len (major arg : Z) :
  len (cbor_head major arg) =
  if arg <? 24 then 1 else if arg <? 256 then 2 else if arg <? 65536 then 3
  else if arg <? 4294967296 then 5 else 9.
Proof.
  unfold cbor_head.
  repeat match goal with |- context [?a <? ?b] => destruct (a <? b) end; reflexivity.
Qed.

Lemma cbor_head_len_bounds (major arg : Z) :
  1 <= len (cbor_head major arg) <= 9
  /\ (24 <= arg -> 2 <= len (cbor_head major arg)).
Proof.
  rewrite cbor_head_len.
  repeat match goal with |- context [?a <? ?b] => destruct (Z.ltb_spec a b) end; lia.
Qed.

Lemma cbor_fixed_lens :
  len (cbor_head 5 3) = 1 /\ len (cbor_text "Type") = 5
  /\ len (cbor_text "Ack") = 4 /\ len (cbor_text "Payload") = 8
  /\ (forall t, len (cbor_uint (FrameType_uint8 t)) = 1)
  /\ len (cbor_uint 0) = 1 /\ len (cbor_bytes None) = 1.
Proof.
  split; [vm_compute; reflexivity|]. split; [vm_compute; reflexivity|].
  split; [vm_compute; reflexivity|]. split; [vm_compute; reflexivity|].
  split; [intros []; vm_compute; reflexivity|].
  split; vm_compute; reflexivity.
Qed.

(** The serialized frame: 19 bytes for the map head, the three keys and
    the type, then the Ack and the payload. *)
Lemma cbor_Marshal_len (frame : Frame) :
  len (cbor_Marshal frame) =
  19 + len (cbor_uint (Ack frame)) + len (cbor_bytes (Payload frame)).
Proof.
  destruct cbor_fixed_lens as (H1 & H2 & H3 & H4 & H5 & _).
  unfold cbor_Marshal. rewrite !len_app, H1, H2, H3, H4, H5. lia.
Qed.

Lemma init_value (P : Z) (nonce key : list Z) : init P nonce key = P - 61.
Proof.
  destruct cbor_fixed_lens as (_ & _ & _ & _ & _ & H6 & H7).
  unfold init, sealed_len, secretbox_Seal, secretbox_Overhead, nonceSize.
  cbn [sealed_msg]. rewrite cbor_Marshal_len. cbn [Ack Payload].
  rewrite H6, H7. lia.
Qed.

(** C1 (as the code has it).  What [txFrame] hands to Put is the nonce and
    the sealed frame: 40 bytes more than the serialized frame or than
    [FramePayloadSize], whichever is larger, where [FramePayloadSize] is
    the substrate's value size less 61.  A frame that serializes to at
    most [FramePayloadSize] bytes is put as 21 bytes fewer than the value
    size, and a frame whose payload has all [FramePayloadSize] bytes (24 or
    more) as more than the value size. *)
Theorem txFrame_put_length (P : Z) (s : Stream) (frame : Frame) (nonce : list Z) :
  len nonce = nonceSize ->
  let n := ciphertext_len (put_value (txFrame_put P s frame nonce)) in
  FramePayloadSize P = P - nonceSize - 21 - secretbox_Overhead
  /\ n = nonceSize + secretbox_Overhead
         + Z.max (FramePayloadSize P) (len (cbor_Marshal frame))
  /\ (len (cbor_Marshal frame) <= FramePayloadSize P -> n = P - 21)
  /\ (forall l, Payload frame = Some l -> len l = FramePayloadSize P ->
                24 <= len l -> P < n).
Proof.
  intros Hnonce n.
  assert (HF : FramePayloadSize P = P - 61) by apply init_value.
  assert (Hn : n = 40 + Z.max (FramePayloadSize P) (len (cbor_Marshal frame))).
  { subst n. unfold txFrame_put, ciphertext_len, sealed_len, secretbox_Seal, zero_extend.
    cbn [put_value ct_nonce ct_box sealed_msg]. rewrite Hnonce.
    unfold nonceSize, secretbox_Overhead.
    destruct (Z.ltb_spec 0 (FramePayloadSize P - len (cbor_Marshal frame))) as [Hlt|Hge].
    - rewrite len_app, len_make by lia. lia.
    - lia. }
  unfold nonceSize, secretbox_Overhead in *.
  split; [lia|]. split; [lia|]. split; [lia|].
  intros l Hl Hlen H24. rewrite Hn, cbor_Marshal_len, Hl.
  unfold cbor_bytes, cbor_uint. rewrite len_app.
  pose proof (cbor_head_len_bounds 0 (Ack frame)) as [? _].
  pose proof (cbor_head_len_bounds 2 (len l)) as [_ ?].
  lia.
Qed.

Lemma txFrame_put_length_witness :
  ciphertext_len (put_value (txFrame_put P1000 stream0 frame_ack_only (make nonceSize)))
  = 979
  /\ ciphertext_len (put_value (txFrame_put P1000 stream0 frame_full (make nonceSize)))
     = 1002.
Proof.
  pose proof (txFrame_put_length P1000 stream0 frame_ack_only (make nonceSize) eq_refl)
    as (_ & Ha & _).
  pose proof (txFrame_put_length P1000 stream0 frame_full (make nonceSize) eq_refl)
    as (_ & Hf & _).
  split.
  - etransitivity; [exact Ha|]. vm_compute. reflexivity.
  - etransitivity; [exact Hf|]. vm_compute. reflexivity.
Defined.

(** ** Transmission and retransmission *)

Section Retransmission.

Variable PayloadSize : Z.
Variable Period : Z.

(** [txFrame] when the nonce is drawn and Put succeeds, in Reliable mode. *)
Lemma txFrame_ok (env : TxEnv) (frame : Frame) (s : Stream) (nonce0 : list Z) :
  nonce env = Some nonce0 -> put_ok env = true -> Mode s = ReliableStream ->
  let s' := (txFrame PayloadSize Period env frame s).1 in
  (txFrame PayloadSize Period env frame s).2 = None
  /\ f_write_idx s' = u64 (f_write_idx s + 1)
  /\ f_read_idx s' = f_read_idx s
  /\ f_ack_idx s' = Z.max (f_ack_idx s) (Ack frame)
  /\ wack (r s') = {[ id frame ]} ∪ wack (r s)
  /\ c s' = txFrame_put PayloadSize s frame nonce0 :: c s
  /\ tq s' = tq s ++ [{| f := frame; priority := u64 (til env + 2 * Period) |}]
  /\ Mode s' = Mode s.
Proof.
  intros Hn Hp Hm. unfold txFrame. rewrite Hn, Hp.
  destruct (Z.ltb_spec (f_ack_idx s) (Ack frame)) as [Hlt|Hge]; sim;
    (destruct (decide _) as [_|Hne]; [|sim; contradiction]);
    unfold txEnqueue, txFrame_put, txFrameID, txFrameKey; sim;
    repeat split; try reflexivity; lia.
Qed.

(** C4 (as the code has it).  The callback of the timer queue does nothing
    for a frame that is no longer outstanding.  For one that is, it puts
    again what [txFrame] put the first time but for the nonce (the same
    identifier, the same key, the same plaintext), it leaves [f_read_idx]
    and the outstanding set as they are, and it adds one to
    [f_write_idx]. *)
Theorem retx_Push_effect (env : TxEnv) (m : smsg) (s : Stream) (nonce0 : list Z) :
  nonce env = Some nonce0 -> put_ok env = true -> Mode s = ReliableStream ->
  (id (f m) ∉ wack (r s) -> retx_Push PayloadSize Period env m s = (s, None))
  /\ (id (f m) ∈ wack (r s) ->
      let s' := (retx_Push PayloadSize Period env m s).1 in
      c s' = txFrame_put PayloadSize s (f m) nonce0 :: c s
      /\ f_read_idx s' = f_read_idx s
      /\ wack (r s') = wack (r s)
      /\ f_write_idx s' = u64 (f_write_idx s + 1)).
Proof.
  intros Hn Hp Hm. unfold retx_Push. split; intros Hin.
  - destruct (decide (id (f m) ∈ wack (r s))); [contradiction|reflexivity].
  - destruct (decide (id (f m) ∈ wack (r s))); [|contradiction].
    destruct (txFrame_ok env (f m) s nonce0 Hn Hp Hm)
      as (_ & Hw & Hr & _ & Hk & Hc & _ & _).
    cbv zeta. rewrite Hc, Hr, Hk, Hw. repeat split.
    apply set_eq. intros x. rewrite elem_of_union, elem_of_singleton.
    split; [intros [->|]; assumption|auto].
Qed.

End Retransmission.

Lemma retx_Push_effect_witness :
  f_write_idx stream1 = 1
  /\ f_write_idx (retx_Push P1000 Period7 env_ok smsg0 stream1).1 = 2.
Proof.
  split; [vm_compute; reflexivity|].
  etransitivity.
  - apply (retx_Push_effect P1000 Period7 env_ok smsg0 stream1 (make nonceSize)).
    + reflexivity.
    + reflexivity.
    + vm_compute. reflexivity.
    + vm_compute. reflexivity.
  - vm_compute. reflexivity.
Defined.

(** ** The steps of the system *)

Lemma same_tx_refl (s : Stream) : same_tx s s.
Proof. unfold same_tx. repeat split. Qed.

Lemma same_tx_trans (s s1 s2 : Stream) : same_tx s s1 -> same_tx s1 s2 -> same_tx s s2.
Proof. unfold same_tx. intuition congruence. Qed.

Ltac same_tx_fields := unfold same_tx; sim; repeat split.

Lemma Read_finish_same_tx (plen : Z) (s : Stream) : same_tx s (Read_finish plen s).1.1.
Proof.
  unfold Read_finish. destruct (Buffer_Read plen (readBuf s)) as [[data rest] e].
  same_tx_fields.
Qed.

Lemma Read_resume_same_tx (ev : read_event) (plen : Z) (s : Stream) :
  same_tx s (Read_resume ev plen s).1.1.
Proof.
  destruct ev; cbn [Read_resume]; sim; try apply same_tx_refl.
  eapply same_tx_trans; [|apply Read_finish_same_tx]. same_tx_fields.
Qed.

Lemma Read_same_tx (now plen : Z) (ev : read_event) (s : Stream) :
  same_tx s (Read now plen ev s s).1.1.
Proof.
  unfold Read. destruct (Read_begin now s); sim.
  - apply same_tx_refl.
  - apply Read_resume_same_tx.
  - apply Read_finish_same_tx.
Qed.

Lemma Write_resume_same_tx (ev : write_event) (p : list Z) (s : Stream) :
  same_tx s (Write_resume ev p s).1.
Proof. destruct ev; cbn [Write_resume Write_finish]; same_tx_fields. Qed.

Lemma Write_same_tx (now : Z) (p : list Z) (ev : write_event) (s : Stream) :
  same_tx s (Write now p ev s s).1.
Proof.
  unfold Write. destruct (Write_begin now s); sim.
  - apply same_tx_refl.
  - apply Write_resume_same_tx.
  - unfold Write_finish. same_tx_fields.
Qed.

Lemma writer_begin_same_tx (s : Stream) : same_tx s (writer_begin s).1.
Proof.
  unfold writer_begin.
  destruct (halted s); [apply same_tx_refl|].
  destruct (WState s); try (same_tx_fields; fail);
    destruct (decide _); try apply same_tx_refl;
    destruct (negb _ && negb _); apply same_tx_refl.
Qed.

(** The writer decides on a teardown only while the write half is not
    Closed. *)
Lemma writer_begin_teardown (s s1 : Stream) (mustAck : bool) :
  writer_begin s = (s1, Send mustAck true) -> WState s1 <> StreamClosed.
Proof.
  unfold writer_begin.
  destruct (halted s); [discriminate|].
  destruct (WState s) eqn:HW; try discriminate;
    (destruct (decide _); [|discriminate]);
    destruct (negb _ && negb _); try discriminate;
    intros [= <- _ _]; congruence.
Qed.

Section Steps.

Variable PayloadSize : Z.
Variable Period : Z.

Lemma exec_step_kind (o : op) (sys sys' : System) :
  exec PayloadSize Period o sys = Some sys' ->
  step_kind PayloadSize Period (stream sys) (stream sys').
Proof.
  unfold exec. destruct (panicked sys); [discriminate|].
  destruct o.
  - (* OpWriter *)
    destruct (writer_at sys); try discriminate.
    pose proof (writer_begin_same_tx (stream sys)) as Hb.
    pose proof (writer_begin_teardown (stream sys)) as Ht.
    destruct (writer_begin (stream sys)) as [s1 [|mustWait|mustAck mustTeardown]];
      intros [= <-]; sim.
    + apply step_quiet. assumption.
    + apply step_quiet. assumption.
    + apply (step_send _ _ _ _ env mustAck mustTeardown s1); [exact Hb| |reflexivity].
      intros ->. eapply Ht. reflexivity.
  - (* OpWriterGo *)
    destruct (writer_at sys) as [|[|]|]; try discriminate. intros [= <-]. sim.
    apply (step_send _ _ _ _ env false false (stream sys));
      [apply same_tx_refl|discriminate|reflexivity].
  - (* OpWriterWake *)
    destruct (writer_at sys) as [|[|]|]; try discriminate.
    destruct (writer_ready ev (stream sys)); [|discriminate]. intros [= <-]. sim.
    destruct ev; cbn [writer_wake].
    + apply (step_send _ _ _ _ env false false (set_onFlush false (stream sys)));
        [same_tx_fields|discriminate|reflexivity].
    + apply (step_send _ _ _ _ env false false (set_onAck false (stream sys)));
        [same_tx_fields|discriminate|reflexivity].
    + apply step_quiet, same_tx_refl.
  - (* OpReader *)
    destruct (reader_at sys); [|discriminate]. intros [= <-]. sim.
    eapply step_reader. reflexivity.
  - (* OpTimer *)
    destruct (tq (stream sys) !! k) as [m|] eqn:Hk; [|discriminate]. intros [= <-]. sim.
    eapply step_timer; [exact Hk|reflexivity].
  - (* OpRead *)
    pose proof (Read_same_tx now plen ev (stream sys)) as HR.
    destruct (Read_begin now (stream sys)); [|destruct (read_ready _ _); [|discriminate]|];
      intros [= <-]; sim; apply step_quiet; assumption.
  - (* OpReadWake *)
    destruct (read_ready _ _); [|discriminate]. intros [= <-]. sim.
    apply step_quiet, Read_resume_same_tx.
  - (* OpWrite *)
    pose proof (Write_same_tx now p ev (stream sys)) as HW.
    destruct (Write_begin now (stream sys)); [|destruct (write_ready _ _); [|discriminate]|];
      intros [= <-]; sim; apply step_quiet; assumption.
  - (* OpWriteWake *)
    destruct (write_ready _ _); [|discriminate]. intros [= <-]. sim.
    apply step_quiet, Write_resume_same_tx.
  - (* OpClose *)
    intros [= <-]. sim. apply step_close. reflexivity.
  - (* OpCloseWake *)
    destruct (onStreamClose _); [|discriminate]. intros [= <-]. sim.
    apply step_quiet. unfold Close_resume. same_tx_fields.
  - intros [= <-]. sim. apply step_quiet. unfold SetDeadline. same_tx_fields.
  - intros [= <-]. sim. apply step_quiet. unfold SetReadDeadline. same_tx_fields.
  - intros [= <-]. sim. apply step_quiet. unfold SetWriteDeadline. same_tx_fields.
  - intros [= <-]. sim. apply step_quiet. same_tx_fields.
Qed.

End Steps.

(** ** The counters *)

Lemma u64_range (x : Z) : 0 <= u64 x < 2 ^ 64.
Proof. unfold u64. apply Z.mod_pos_bound. lia. Qed.

Lemma u64_small (x : Z) : 0 <= x < 2 ^ 64 -> u64 x = x.
Proof. intros Hx. unfold u64. apply Z.mod_small. lia. Qed.

Section Counters.

Variable PayloadSize : Z.
Variable Period : Z.

(** What [txFrame] does to the counters and the queue. *)
Lemma txFrame_counters (env : TxEnv) (frame : Frame) (s : Stream) :
  let s' := (txFrame PayloadSize Period env frame s).1 in
  f_read_idx s' = f_read_idx s
  /\ f_ack_idx s' = Z.max (f_ack_idx s) (Ack frame)
  /\ (f_write_idx s' = f_write_idx s \/ f_write_idx s' = u64 (f_write_idx s + 1))
  /\ (tq s' = tq s \/ exists p, tq s' = tq s ++ [{| f := frame; priority := p |}]).
Proof.
  unfold txFrame.
  destruct (Z.ltb_spec (f_ack_idx s) (Ack frame)); destruct (nonce env);
    destruct (put_ok env); sim; try destruct (decide _); unfold txEnqueue; sim;
    repeat split; eauto; lia.
Qed.

Lemma txFrame_acks_behind (env : TxEnv) (frame : Frame) (s : Stream) :
  acks_behind s -> Ack frame <= f_read_idx s ->
  acks_behind (txFrame PayloadSize Period env frame s).1.
Proof.
  intros (Ha & Hw & Hq) Hack.
  destruct (txFrame_counters env frame s) as (Hr & Hk & Hi & Ht).
  unfold acks_behind. rewrite Hr, Hk. split; [lia|]. split.
  - destruct Hi as [->| ->]; [assumption|]. apply u64_range.
  - destruct Ht as [->|[p ->]]; [assumption|].
    apply Forall_app. split; [assumption|]. apply Forall_singleton. assumption.
Qed.

(** [acks_behind] reads the three counters and the queue only. *)
Lemma acks_behind_ext (s s' : Stream) :
  f_read_idx s' = f_read_idx s -> f_ack_idx s' = f_ack_idx s ->
  f_write_idx s' = f_write_idx s -> tq s' = tq s ->
  acks_behind s -> acks_behind s'.
Proof. unfold acks_behind. intros -> -> -> ->. auto. Qed.

Lemma counters_step_quiet (s s' : Stream) :
  f_read_idx s' = f_read_idx s -> f_ack_idx s' = f_ack_idx s ->
  f_write_idx s' = f_write_idx s -> tq s' = tq s ->
  acks_behind s -> counters_step s s'.
Proof.
  intros Hr Ha Hw Ht Hs. unfold counters_step. rewrite Hr, Hw.
  split; [auto|]. split; [auto|]. intros _. eapply acks_behind_ext; eauto.
Qed.

Lemma writer_send_counters (env : TxEnv) (mustAck mustTeardown : bool) (s : Stream) :
  acks_behind s ->
  counters_step s (writer_send PayloadSize Period env mustAck mustTeardown s).1.
Proof.
  intros Hs. unfold writer_send, writer_frame.
  destruct (Buffer_Read (FramePayloadSize PayloadSize)
              (writeBuf (if mustTeardown then set_WState StreamClosed s else s)))
    as [[data rest] e].
  set (s1 := set_writeBuf rest (if mustTeardown then set_WState StreamClosed s else s)).
  set (frame := {| Type_ := _; id := _; Ack := _; Payload := _ |}).
  assert (H1 : f_read_idx s1 = f_read_idx s /\ f_ack_idx s1 = f_ack_idx s
               /\ f_write_idx s1 = f_write_idx s /\ tq s1 = tq s).
  { subst s1. destruct mustTeardown; sim; auto. }
  destruct H1 as (Hr & Ha & Hw & Ht).
  assert (Hs1 : acks_behind s1) by (eapply acks_behind_ext; eauto).
  assert (Hquiet : counters_step s s1) by (apply counters_step_quiet; auto).
  destruct (FramePayloadSize PayloadSize <? 0); [exact Hquiet|].
  destruct (_ || _ || _); [|exact Hquiet].
  assert (Hack : Ack frame <= f_read_idx s1).
  { subst frame. sim. destruct mustTeardown; sim; lia. }
  pose proof (txFrame_counters env frame s1) as (Hr' & _ & Hw' & _).
  pose proof (txFrame_acks_behind env frame s1 Hs1 Hack) as Hs'.
  destruct (txFrame PayloadSize Period env frame s1) as [s2 [e'|]];
    unfold counters_step; sim;
    (split; [left; congruence|]; split; [rewrite <- Hw; exact Hw'|]; intros _);
    [exact Hs'|].
  eapply acks_behind_ext; [..|exact Hs']; reflexivity.
Qed.

Lemma writer_wake_counters (ev : writer_event) (env : TxEnv) (s : Stream) :
  acks_behind s -> counters_step s (writer_wake PayloadSize Period ev env s).1.
Proof.
  intros Hs. destruct ev; cbn [writer_wake].
  - pose proof (writer_send_counters env false false (set_onFlush false s)) as Hc.
    apply Hc. eapply acks_behind_ext; [..|exact Hs]; reflexivity.
  - pose proof (writer_send_counters env false false (set_onAck false s)) as Hc.
    apply Hc. eapply acks_behind_ext; [..|exact Hs]; reflexivity.
  - apply counters_step_quiet; auto.
Qed.

Lemma processAck_counters (frame : Frame) (s : Stream) :
  let s' := processAck frame s in
  f_read_idx s' = f_read_idx s /\ f_ack_idx s' = f_ack_idx s
  /\ f_write_idx s' = f_write_idx s /\ tq s' = tq s /\ c s' = c s
  /\ WState s' = WState s /\ RState s' = RState s /\ readBuf s' = readBuf s
  /\ writeBuf s' = writeBuf s /\ Mode s' = Mode s.
Proof.
  unfold processAck, processAck_in.
  destruct (processAck_range _ _ _ _) as [w [|]]; sim; repeat split.
Qed.

Lemma reader_accept_counters (frame : Frame) (s0 s : Stream) :
  f_read_idx s0 = f_read_idx s -> f_ack_idx s0 = f_ack_idx s ->
  f_write_idx s0 = f_write_idx s -> tq s0 = tq s ->
  acks_behind s -> counters_step s (reader_accept frame s0).
Proof.
  intros Hr Ha Hw Ht Hs. unfold reader_accept.
  pose proof (processAck_counters frame s0) as (Pr & Pa & Pw & Pt & _).
  cbv zeta in Pr, Pa, Pw, Pt.
  destruct (decide (Type_ frame = StreamEnd)).
  - apply counters_step_quiet; sim; congruence.
  - unfold counters_step. sim. rewrite Pr, Pw, Hr, Hw.
    split; [auto|]. split; [auto|]. intros Hlt.
    destruct Hs as (Hack & Hwr & Hq). unfold acks_behind. sim.
    rewrite ?Pa, ?Pw, ?Pt, ?Ha, ?Hw, ?Ht, ?Pr, ?Hr.
    rewrite u64_small by lia. split; [lia|]. split; [lia|].
    eapply Forall_impl; [exact Hq|]. cbn. intros m Hm. lia.
Qed.

Lemma reader_counters (got : fetched) (s : Stream) :
  acks_behind s -> counters_step s (reader got s).1.
Proof.
  intros Hs. unfold reader.
  destruct (halted s); [apply counters_step_quiet; auto|].
  destruct (RState s) eqn:HR.
  - (* StreamOpen *)
    set (s0 := if decide (Mode s = ReliableStream) then _ else s).
    assert (H0 : f_read_idx s0 = f_read_idx s /\ f_ack_idx s0 = f_ack_idx s
                 /\ f_write_idx s0 = f_write_idx s /\ tq s0 = tq s).
    { subst s0. destruct (decide _); [destruct (_ <=? _)|]; sim; auto. }
    destruct H0 as (Hr & Ha & Hw & Ht).
    destruct got as [| |type ack payload]; cbn [readFrame]; sim.
    + apply counters_step_quiet; auto.
    + apply counters_step_quiet; auto.
    + apply reader_accept_counters; auto.
  - (* StreamClosing: no case of the switch *)
    destruct got as [| |type ack payload]; cbn [readFrame]; sim.
    + apply counters_step_quiet; auto.
    + apply counters_step_quiet; auto.
    + apply reader_accept_counters; auto.
  - (* StreamClosed *)
    destruct (decide _); [destruct (_ <? _)|]; apply counters_step_quiet; auto.
Qed.

Lemma counters_step_from (s s1 s' : Stream) :
  same_tx s s1 -> counters_step s1 s' -> counters_step s s'.
Proof.
  unfold same_tx, counters_step. intros (_ & _ & _ & -> & -> & _). auto.
Qed.

Lemma same_tx_acks_behind (s s1 : Stream) : same_tx s s1 -> acks_behind s -> acks_behind s1.
Proof.
  intros (_ & Ht & _ & Hr & Hw & Ha & _). apply acks_behind_ext; assumption.
Qed.

Lemma retx_Push_counters (env : TxEnv) (k : nat) (m : smsg) (s : Stream) :
  tq s !! k = Some m -> acks_behind s ->
  counters_step s (retx_Push PayloadSize Period env m (set_tq (delete k (tq s)) s)).1.
Proof.
  intros Hk Hs.
  set (s1 := set_tq (delete k (tq s)) s).
  assert (Hs1 : acks_behind s1).
  { destruct Hs as (Ha & Hw & Hq). unfold acks_behind. subst s1. sim.
    split; [assumption|]. split; [assumption|]. apply Forall_delete. assumption. }
  assert (Hack : Ack (f m) <= f_read_idx s1).
  { destruct Hs as (_ & _ & Hq). rewrite Forall_lookup in Hq. apply (Hq k m Hk). }
  unfold retx_Push. destruct (decide _).
  - pose proof (txFrame_counters env (f m) s1) as (Hr & _ & Hw & _).
    pose proof (txFrame_acks_behind env (f m) s1 Hs1 Hack) as Hs'.
    unfold counters_step. split; [left; exact Hr|]. split; [exact Hw|]. auto.
  - unfold counters_step. sim. auto.
Qed.

(** Every step moves each counter by zero or by one 64-bit increment,
    and keeps the acknowledgements behind the reader as long as
    [f_read_idx] does not wrap around. *)
Lemma step_counters (s s' : Stream) :
  step_kind PayloadSize Period s s' -> acks_behind s -> counters_step s s'.
Proof.
  intros [Hq|Hc|got Hr|env ma mt s1 H1 _ Hw|k m env Hk Ht] Hs; subst.
  - destruct Hq as (_ & Ht & _ & Hr & Hw & Ha & _). apply counters_step_quiet; assumption.
  - unfold Close. sim. destruct (decide _); sim; apply counters_step_quiet; auto.
  - apply reader_counters. assumption.
  - eapply counters_step_from; [exact H1|]. apply writer_send_counters.
    eapply same_tx_acks_behind; eassumption.
  - apply retx_Push_counters; assumption.
Qed.

Lemma start_acks_behind (mysecret theirsecret : list Z) :
  acks_behind (stream (start PayloadSize mysecret theirsecret)).
Proof.
  unfold start, NewStream, exchange, io_ReadFull, acks_behind. sim.
  split; [lia|]. split; [lia|]. apply Forall_nil_2.
Qed.

Lemma reachable_before_wrap_acks_behind (sys : System) :
  reachable_before_wrap PayloadSize Period sys -> acks_behind (stream sys).
Proof.
  induction 1 as [a b|o sys sys' _ IH [Hr _] Hexec].
  - apply start_acks_behind.
  - apply exec_step_kind in Hexec. apply (step_counters _ _ Hexec IH). assumption.
Qed.

(** C6 (amended).  In every state reached before a counter is at the
    largest [uint64], [f_ack_idx <= f_read_idx]; and no step from such a
    state decreases [f_write_idx] or [f_read_idx]: each stays or grows by
    one. *)
Theorem counters_before_wrap (sys : System) :
  reachable_before_wrap PayloadSize Period sys ->
  f_ack_idx (stream sys) <= f_read_idx (stream sys)
  /\ (forall o sys',
        before_wrap (stream sys) ->
        exec PayloadSize Period o sys = Some sys' ->
        (f_write_idx (stream sys) <= f_write_idx (stream sys')
           <= f_write_idx (stream sys) + 1)
        /\ (f_read_idx (stream sys) <= f_read_idx (stream sys')
              <= f_read_idx (stream sys) + 1)
        /\ f_ack_idx (stream sys') <= f_read_idx (stream sys')).
Proof.
  intros Hreach.
  pose proof (reachable_before_wrap_acks_behind sys Hreach) as Hs.
  split; [destruct Hs as ([_ ?] & _); assumption|].
  intros o sys' [Hr Hw] Hexec.
  apply exec_step_kind in Hexec.
  destruct (step_counters _ _ Hexec Hs) as (Hr' & Hw' & Hs').
  specialize (Hs' Hr). destruct Hs as ([Ha0 Ha] & Hw0 & _).
  destruct Hs' as ([_ Ha'] & _).
  rewrite !u64_small in Hr', Hw' by lia.
  split; [lia|]. split; [lia|]. assumption.
Qed.

End Counters.

(** ** Executions *)

Section Executions.

Variable PayloadSize : Z.
Variable Period : Z.

Lemma run_reachable (ops : list op) (sys sys' : System) :
  reachable PayloadSize Period sys ->
  run PayloadSize Period ops sys = Some sys' ->
  reachable PayloadSize Period sys'.
Proof.
  revert sys. induction ops as [|o ops IH]; intros sys Hr; cbn [run].
  - intros [= <-]. assumption.
  - destruct (exec PayloadSize Period o sys) as [sys1|] eqn:He; [|discriminate].
    apply IH. eapply reachable_exec; eassumption.
Qed.

Lemma run_before_wrap_reachable (ops : list op) (sys sys' : System) :
  reachable_before_wrap PayloadSize Period sys ->
  run_before_wrap PayloadSize Period ops sys = Some sys' ->
  reachable_before_wrap PayloadSize Period sys'.
Proof.
  revert sys. induction ops as [|o ops IH]; intros sys Hr; cbn [run_before_wrap].
  - intros [= <-]. assumption.
  - destruct (before_wrapb (stream sys)) eqn:Hb; [|discriminate].
    destruct (exec PayloadSize Period o sys) as [sys1|] eqn:He; [|discriminate].
    apply IH. eapply before_wrap_exec; [eassumption| |eassumption].
    unfold before_wrapb in Hb. apply andb_true_iff in Hb as [H1 H2].
    apply Z.ltb_lt in H1, H2. split; assumption.
Qed.

(** A firing of the only entry of the timer queue. *)
Lemma exec_timer_single (env : TxEnv) (m : smsg) (sys : System) :
  panicked sys = false -> tq (stream sys) = [m] ->
  exec PayloadSize Period (OpTimer 0 env) sys
  = Some (with_stream sys (retx_Push PayloadSize Period env m (set_tq [] (stream sys))).1).
Proof. intros Hp Hq. unfold exec. rewrite Hp, Hq. reflexivity. Qed.

Lemma u64_succ (n : Z) : u64 (u64 n + 1) = u64 (n + 1).
Proof. unfold u64. rewrite Z.add_mod_idemp_l by lia. reflexivity. Qed.

Lemma retransmitting_next (n : Z) (sys : System) :
  retransmitting PayloadSize Period n sys ->
  exists sys', exec PayloadSize Period
                 (OpTimer 0 {| til := 0; nonce := Some []; put_ok := true |}) sys
               = Some sys'
               /\ retransmitting PayloadSize Period (n + 1) sys'.
Proof.
  intros (Hreach & Hp & Hm & Hw & m & Hq & Hin).
  set (env := {| til := 0; nonce := Some []; put_ok := true |}).
  pose proof (exec_timer_single env m sys Hp Hq) as He.
  eexists. split; [exact He|].
  set (s1 := set_tq [] (stream sys)) in *.
  assert (Hin1 : id (f m) ∈ wack (r s1)) by exact Hin.
  destruct (retx_Push_effect PayloadSize Period env m s1 [] eq_refl eq_refl Hm)
    as [_ Hyes].
  specialize (Hyes Hin1). cbv zeta in Hyes. destruct Hyes as (_ & _ & Hk & Hw').
  assert (Htx : retx_Push PayloadSize Period env m s1
                = txFrame PayloadSize Period env (f m) s1).
  { unfold retx_Push. destruct (decide _); [reflexivity|contradiction]. }
  destruct (txFrame_ok PayloadSize Period env (f m) s1 [] eq_refl eq_refl Hm)
    as (_ & _ & _ & _ & _ & _ & Htq & Hmode).
  cbv zeta in Htq, Hmode. rewrite <- Htx in Htq, Hmode.
  unfold retransmitting. sim.
  split; [eapply reachable_exec; eassumption|].
  split; [assumption|]. split; [rewrite Hmode; exact Hm|].
  split; [rewrite Hw'; subst s1; sim; rewrite Hw; apply u64_succ|].
  eexists. split; [rewrite Htq; subst s1; sim; reflexivity|].
  sim. rewrite Hk. exact Hin.
Qed.

Lemma retransmitting_from (n0 : Z) (sys0 : System) :
  retransmitting PayloadSize Period n0 sys0 ->
  forall n, n0 <= n -> exists sys, retransmitting PayloadSize Period n sys.
Proof.
  intros H0 n Hn. revert n Hn.
  apply (Z.le_ind (fun n => exists sys, retransmitting PayloadSize Period n sys)).
  - intros x y ->. reflexivity.
  - eauto.
  - intros n _ [sys Hs]. destruct (retransmitting_next n sys Hs) as (sys' & _ & Hs').
    exists sys'. replace (Z.succ n) with (n + 1) by lia. exact Hs'.
Qed.

End Executions.

Lemma system1_reachable : reachable P1000 Period7 system1.
Proof.
  apply (run_reachable P1000 Period7 first_frame system0).
  - apply reachable_start.
  - vm_compute. reflexivity.
Qed.

Lemma system1_retransmitting : retransmitting P1000 Period7 1 system1.
Proof.
  split; [apply system1_reachable|].
  split; [vm_compute; reflexivity|]. split; [vm_compute; reflexivity|].
  split; [vm_compute; reflexivity|].
  exists smsg0. split; vm_compute; reflexivity.
Qed.

(** The counterexample to C6 as stated: a reachable state in which
    [f_write_idx] is the largest [uint64], and a step from it (a
    retransmission) after which [f_write_idx] is 0. *)
Lemma counter_wraps :
  exists sys o sys',
    reachable P1000 Period7 sys
    /\ exec P1000 Period7 o sys = Some sys'
    /\ f_write_idx (stream sys) = 2 ^ 64 - 1
    /\ f_write_idx (stream sys') = 0
    /\ f_write_idx (stream sys') < f_write_idx (stream sys).
Proof.
  destruct (retransmitting_from P1000 Period7 1 system1 system1_retransmitting
              (2 ^ 64 - 1) ltac:(lia)) as [sys Hs].
  destruct (retransmitting_next P1000 Period7 _ sys Hs) as (sys' & He & Hs').
  exists sys, (OpTimer 0 {| til := 0; nonce := Some []; put_ok := true |}), sys'.
  destruct Hs as (Hreach & _ & _ & Hw & _). destruct Hs' as (_ & _ & _ & Hw' & _).
  split; [assumption|]. split; [assumption|].
  rewrite Hw, Hw'. split; [reflexivity|]. split; reflexivity.
Qed.

Lemma system1_before_wrap : reachable_before_wrap P1000 Period7 system1.
Proof.
  apply (run_before_wrap_reachable P1000 Period7 first_frame system0).
  - apply before_wrap_start.
  - vm_compute. reflexivity.
Qed.

Lemma counters_before_wrap_witness :
  f_ack_idx (stream system1) <= f_read_idx (stream system1)
  /\ f_write_idx (stream system1) = 1.
Proof.
  split; [|vm_compute; reflexivity].
  apply (counters_before_wrap P1000 Period7 system1). apply system1_before_wrap.
Defined.

(** ** The window and the teardown *)

Section Window.

Variable PayloadSize : Z.
Variable Period : Z.

(** The two outcomes of [txFrame]: it fails and has published nothing, or
    it has put the frame, counted it and, in Reliable mode, recorded it as
    outstanding and queued it. *)
Lemma txFrame_cases (env : TxEnv) (frame : Frame) (s : Stream) :
  let res := txFrame PayloadSize Period env frame s in
  WState res.1 = WState s /\ Mode res.1 = Mode s
  /\ ((res.2 <> None /\ c res.1 = c s /\ tq res.1 = tq s /\ r res.1 = r s)
      \/ (res.2 = None /\ put_ok env = true
          /\ (exists nonce0, nonce env = Some nonce0
                /\ c res.1 = txFrame_put PayloadSize s frame nonce0 :: c s)
          /\ ((Mode s = ReliableStream
               /\ (exists p, tq res.1 = tq s ++ [{| f := frame; priority := p |}])
               /\ wack (r res.1) = {[ id frame ]} ∪ wack (r s))
              \/ (Mode s <> ReliableStream /\ tq res.1 = tq s /\ r res.1 = r s)))).
Proof.
  unfold txFrame.
  destruct (Z.ltb_spec (f_ack_idx s) (Ack frame)); destruct (nonce env) as [nonce0|];
    destruct (put_ok env); sim; try destruct (decide _) as [Hm|Hm];
    unfold txEnqueue, txFrame_put, txFrameID, txFrameKey; sim.
  all: split; [reflexivity|]; split; [reflexivity|].
  all: try (left; repeat split; discriminate).
  all: right; split; [reflexivity|]; split; [reflexivity|]; split; [eauto|].
  all: try (left; split; [assumption|]; split; [eauto|reflexivity]).
  all: right; repeat split; assumption.
Qed.

(** The frame of an iteration and the stream it leaves. *)
Lemma writer_frame_effect (mustTeardown : bool) (s : Stream) :
  let res := writer_frame PayloadSize mustTeardown s in
  c res.1 = c s /\ tq res.1 = tq s /\ r res.1 = r s /\ Mode res.1 = Mode s
  /\ WState res.1 = (if mustTeardown then StreamClosed else WState s)
  /\ Type_ res.2 = (if mustTeardown then StreamEnd else StreamStart)
  /\ id res.2 = f_write_idx s /\ Ack res.2 = f_read_idx s.
Proof.
  unfold writer_frame.
  destruct (Buffer_Read _ _) as [[data rest] e]. destruct mustTeardown; sim; repeat split.
Qed.

(** An iteration of the writer adds at most its own frame to the
    outstanding set. *)
Lemma writer_send_wack (env : TxEnv) (mustAck mustTeardown : bool) (s : Stream) :
  let s' := (writer_send PayloadSize Period env mustAck mustTeardown s).1 in
  wack (r s') = wack (r s) \/ wack (r s') = {[ f_write_idx s ]} ∪ wack (r s).
Proof.
  unfold writer_send.
  pose proof (writer_frame_effect mustTeardown s) as (_ & _ & Hr & _ & _ & _ & Hid & _).
  destruct (writer_frame PayloadSize mustTeardown s) as [s1 frame]. sim.
  destruct (FramePayloadSize PayloadSize <? 0); [left; sim; congruence|].
  destruct (_ || _ || _); [|left; sim; congruence].
  pose proof (txFrame_cases env frame s1) as (_ & _ & Hcase).
  destruct (txFrame PayloadSize Period env frame s1) as [s2 [e|]]; sim.
  - destruct Hcase as [(_ & _ & _ & Hr2)|(Hn & _)]; [|discriminate].
    left. congruence.
  - destruct Hcase as [(Hn & _)|(_ & _ & _ & [(_ & _ & Hw)|(_ & _ & Hr2)])];
      [contradiction| |left; congruence].
    right. rewrite Hw, Hid, Hr. reflexivity.
Qed.

Lemma size_insert_le (x : Z) (X : gset Z) : (size ({[ x ]} ∪ X) <= S (size X))%nat.
Proof.
  rewrite size_union_alt, size_singleton.
  assert (Hsub : X ∖ {[x]} ⊆ X).
  { intros y Hy. apply elem_of_difference in Hy as [Hy _]. exact Hy. }
  pose proof (subseteq_size _ _ Hsub). lia.
Qed.

(** C3 (amended).  In Reliable mode with the write half Open, an
    iteration of the writer that has no acknowledgement and no teardown to
    send and does not wait (it leaves its first critical section and goes
    on at once) found fewer than [stream_window_size] indices outstanding,
    and leaves at most [stream_window_size] of them. *)
Theorem writer_window_check (env env' : TxEnv) (sys sys1 sys2 : System) :
  Mode (stream sys) = ReliableStream ->
  WState (stream sys) = StreamOpen ->
  exec PayloadSize Period (OpWriter env) sys = Some sys1 ->
  exec PayloadSize Period (OpWriterGo env') sys1 = Some sys2 ->
  writer_begin (stream sys) = (stream sys, Pause false)
  /\ Z.of_nat (size (wack (r (stream sys)))) < stream_window_size (stream sys)
  /\ Z.of_nat (size (wack (r (stream sys2)))) <= stream_window_size (stream sys).
Proof.
  intros Hm Hw H1 H2.
  unfold exec in H1, H2.
  destruct (panicked sys) eqn:Hp; [discriminate|].
  destruct (writer_at sys); try discriminate.
  assert (Hb : exists d, writer_begin (stream sys) = (stream sys, d)
                 /\ (forall mw, d = Pause mw -> mw = false ->
                     Z.of_nat (size (wack (r (stream sys))))
                     < stream_window_size (stream sys))).
  { unfold writer_begin. rewrite Hw, Hm.
    destruct (halted (stream sys));
      [eexists; split; [reflexivity|intros mw Hd; discriminate]|].
    destruct (decide (ReliableStream = ReliableStream)) as [_|]; [|contradiction].
    destruct (negb _ && negb _);
      [|eexists; split; [reflexivity|intros mw Hd; discriminate]].
    eexists. split; [reflexivity|].
    intros mw [= <-].
    destruct (decide (StreamOpen = StreamClosing)); [discriminate|].
    intros Hf. apply orb_false_iff in Hf as [Hf _]. apply Z.leb_gt in Hf. exact Hf. }
  destruct Hb as (d & Hb & Hsize). rewrite Hb in H1.
  destruct d as [|mw|ma mt]; injection H1 as <-; sim.
  - rewrite Hp in H2. discriminate.
  - destruct mw; [discriminate|].
    injection H2 as <-. sim.
    specialize (Hsize false eq_refl eq_refl).
    split; [assumption|]. split; [assumption|].
    destruct (writer_send_wack env' false false (stream sys)) as [->| ->]; [lia|].
    pose proof (size_insert_le (f_write_idx (stream sys)) (wack (r (stream sys)))). lia.
  - exfalso.
    destruct (writer_send PayloadSize Period env ma mt (stream sys)) as [s' [| |]];
      sim; rewrite ?Hp in H2; discriminate.
Qed.

End Window.

Lemma writer_window_check_witness :
  Z.of_nat (size (wack (r (stream system_written)))) < stream_window_size (stream system_written)
  /\ Z.of_nat (size (wack (r (stream system1)))) <= stream_window_size (stream system_written).
Proof.
  pose proof (writer_window_check P1000 Period7 env_ok env_ok
                system_written system_paused system1) as Hw.
  apply Hw; vm_compute; reflexivity.
Defined.

(** The counterexample to C3 as stated: two executions of a stream in
    Reliable mode, with a window of 3, that end with 4 indices outstanding.
    In the first the writer sends the End frame of a teardown while three
    frames are outstanding; in the second it sends an acknowledgement that
    is due while three frames are outstanding. *)
Lemma window_exceeded :
  (run P1000 Period7 ops_teardown system0 = Some system_teardown
   /\ reachable P1000 Period7 system_teardown
   /\ Mode (stream system_teardown) = ReliableStream
   /\ stream_window_size (stream system_teardown) = 3
   /\ elements (wack (r (stream system_teardown))) = [3; 2; 1; 0]
   /\ size (wack (r (stream system_teardown))) = 4%nat)
  /\ (run P1000 Period7 ops_ack system0 = Some system_ack
      /\ reachable P1000 Period7 system_ack
      /\ Mode (stream system_ack) = ReliableStream
      /\ stream_window_size (stream system_ack) = 3
      /\ elements (wack (r (stream system_ack))) = [3; 4; 2; 1]
      /\ size (wack (r (stream system_ack))) = 4%nat).
Proof.
  assert (H1 : run P1000 Period7 ops_teardown system0 = Some system_teardown)
    by (vm_compute; reflexivity).
  assert (H2 : run P1000 Period7 ops_ack system0 = Some system_ack)
    by (vm_compute; reflexivity).
  split.
  - split; [exact H1|].
    split; [exact (run_reachable _ _ _ _ _ (reachable_start _ _ _ _) H1)|].
    repeat split; vm_compute; reflexivity.
  - split; [exact H2|].
    split; [exact (run_reachable _ _ _ _ _ (reachable_start _ _ _ _) H2)|].
    repeat split; vm_compute; reflexivity.
Qed.

(** ** The teardown *)

Section Teardown.

Variable PayloadSize : Z.
Variable Period : Z.

(** [one_end] is kept by a step that adds no frame and does not reopen
    the write half. *)
Lemma one_end_subset (s s' : Stream) :
  (WState s' <> StreamClosed -> WState s <> StreamClosed) ->
  (forall x, x ∈ published s' ++ queued s' -> x ∈ published s ++ queued s) ->
  one_end s -> one_end s'.
Proof.
  intros HW Hsub [Hnone Hone]. split.
  - intros Hopen x Hx. apply Hnone; auto.
  - intros x y Hx Hy. apply Hone; auto.
Qed.

(** It is kept by a step that adds one frame, when that frame is not of
    kind End or is added as the write half goes from not Closed to
    Closed. *)
Lemma one_end_add (frame : Frame) (s s' : Stream) :
  (forall x, x ∈ published s' ++ queued s' -> x ∈ published s ++ queued s \/ x = frame) ->
  (Type_ frame <> StreamEnd /\ (WState s' <> StreamClosed -> WState s <> StreamClosed))
  \/ (WState s <> StreamClosed /\ WState s' = StreamClosed) ->
  one_end s -> one_end s'.
Proof.
  intros Hsub Hcase [Hnone Hone]. split.
  - intros Hopen x Hx. destruct Hcase as [[Hne HW]|[_ Hc]]; [|contradiction].
    destruct (Hsub x Hx) as [Hold| ->]; [|assumption]. apply Hnone; auto.
  - intros x y Hx Hy Ex Ey.
    destruct (Hsub x Hx) as [Hox| ->], (Hsub y Hy) as [Hoy| ->].
    + apply Hone; assumption.
    + destruct Hcase as [[Hne _]|[Ho _]]; [contradiction|].
      exfalso. exact (Hnone Ho x Hox Ex).
    + destruct Hcase as [[Hne _]|[Ho _]]; [contradiction|].
      exfalso. exact (Hnone Ho y Hoy Ey).
    + reflexivity.
Qed.

Lemma same_tx_one_end (s s' : Stream) : same_tx s s' -> one_end s -> one_end s'.
Proof.
  intros (Hc & Ht & _ & _ & _ & _ & HW & _). apply one_end_subset.
  - rewrite HW. auto.
  - unfold published, queued. rewrite Hc, Ht. auto.
Qed.

(** What [txFrame] adds to the frames of the stream. *)
Lemma txFrame_frames (env : TxEnv) (frame : Frame) (s : Stream) (x : Frame) :
  let s' := (txFrame PayloadSize Period env frame s).1 in
  x ∈ published s' ++ queued s' -> x ∈ published s ++ queued s \/ x = frame.
Proof.
  pose proof (txFrame_cases PayloadSize Period env frame s) as (_ & _ & Hcase).
  cbv zeta in *. unfold published, queued.
  destruct Hcase as [(_ & -> & -> & _)|(_ & _ & (n0 & _ & ->) & Hq)]; [auto|].
  destruct Hq as [(_ & (p & ->) & _)|(_ & -> & _)].
  - rewrite fmap_app, fmap_cons. cbn [fmap list_fmap].
    rewrite !elem_of_app, elem_of_cons, list_elem_of_singleton.
    cbn [put_frame txFrame_put f]. tauto.
  - rewrite fmap_cons. rewrite !elem_of_app, elem_of_cons.
    cbn [put_frame txFrame_put]. tauto.
Qed.

Lemma writer_send_one_end (env : TxEnv) (mustAck mustTeardown : bool) (s : Stream) :
  (mustTeardown = true -> WState s <> StreamClosed) ->
  one_end s -> one_end (writer_send PayloadSize Period env mustAck mustTeardown s).1.
Proof.
  intros Hopen Hs. unfold writer_send.
  pose proof (writer_frame_effect PayloadSize mustTeardown s)
    as (Hc & Ht & _ & _ & HW & HT & _).
  destruct (writer_frame PayloadSize mustTeardown s) as [s1 frame]. sim.
  assert (Hs1 : forall x, x ∈ published s1 ++ queued s1 -> x ∈ published s ++ queued s).
  { unfold published, queued. rewrite Hc, Ht. auto. }
  assert (Hquiet : one_end s1).
  { apply (one_end_subset s s1); [|exact Hs1|exact Hs].
    rewrite HW. destruct mustTeardown; [contradiction|auto]. }
  destruct (FramePayloadSize PayloadSize <? 0); [exact Hquiet|].
  destruct (_ || _ || _); [|exact Hquiet].
  pose proof (txFrame_frames env frame s1) as Hfr.
  pose proof (txFrame_cases PayloadSize Period env frame s1) as (HW2 & _ & _).
  cbv zeta in Hfr, HW2.
  assert (Hend : one_end (txFrame PayloadSize Period env frame s1).1).
  { apply (one_end_add frame s).
    - intros x Hx. destruct (Hfr x Hx) as [Hold|]; auto.
    - rewrite HW2, HW. destruct mustTeardown.
      + right. split; [auto|reflexivity].
      + left. split; [rewrite HT; discriminate|auto].
    - exact Hs. }
  destruct (txFrame PayloadSize Period env frame s1) as [s2 [e|]]; sim; [exact Hend|].
  apply (same_tx_one_end s2); [same_tx_fields|exact Hend].
Qed.

Lemma reader_one_end (got : fetched) (s : Stream) : one_end s -> one_end (reader got s).1.
Proof.
  intros Hs.
  assert (Hfields : c (reader got s).1 = c s /\ tq (reader got s).1 = tq s
                    /\ WState (reader got s).1 = WState s).
  { unfold reader. destruct (halted s); [auto|].
    assert (Hacc : forall frame s0, c s0 = c s -> tq s0 = tq s -> WState s0 = WState s ->
                     c (reader_accept frame s0) = c s /\ tq (reader_accept frame s0) = tq s
                     /\ WState (reader_accept frame s0) = WState s).
    { intros frame s0 H1 H2 H3. unfold reader_accept.
      pose proof (processAck_counters frame s0) as (_ & _ & _ & Pt & Pc & PW & _).
      cbv zeta in Pt, Pc, PW. destruct (decide _); sim; repeat split; congruence. }
    destruct (RState s).
    - destruct (decide _); [destruct (_ <=? _)|];
        destruct got; cbn [readFrame]; sim; auto; apply Hacc; reflexivity.
    - destruct got; cbn [readFrame]; sim; auto.
    - destruct (decide _); [destruct (_ <? _)|]; sim; auto. }
  destruct Hfields as (Hc & Ht & HW). apply (one_end_subset s).
  - rewrite HW. auto.
  - unfold published, queued. rewrite Hc, Ht. auto.
  - exact Hs.
Qed.

Lemma retx_Push_one_end (env : TxEnv) (k : nat) (m : smsg) (s : Stream) :
  tq s !! k = Some m -> one_end s ->
  one_end (retx_Push PayloadSize Period env m (set_tq (delete k (tq s)) s)).1.
Proof.
  intros Hk Hs.
  set (s1 := set_tq (delete k (tq s)) s).
  assert (Hin : f m ∈ published s ++ queued s).
  { apply elem_of_app. right. unfold queued. apply list_elem_of_fmap.
    exists m. split; [reflexivity|]. eapply list_elem_of_lookup_2. exact Hk. }
  assert (Hs1 : forall x, x ∈ published s1 ++ queued s1 -> x ∈ published s ++ queued s).
  { intros x. subst s1. unfold published, queued. sim. rewrite !elem_of_app.
    intros [Hx|Hx]; [auto|]. right.
    apply list_elem_of_fmap in Hx as (m' & -> & Hm'). apply list_elem_of_fmap.
    exists m'. split; [reflexivity|].
    eapply list_elem_of_delete_inv. exact Hm'. }
  unfold retx_Push. destruct (decide _); sim.
  - pose proof (txFrame_frames env (f m) s1) as Hfr.
    pose proof (txFrame_cases PayloadSize Period env (f m) s1) as (HW & _). cbv zeta in *.
    apply (one_end_subset s); [rewrite HW; subst s1; sim; auto| |exact Hs].
    intros x Hx. destruct (Hfr x Hx) as [Hold| ->]; auto.
  - apply (one_end_subset s); [subst s1; sim; auto|exact Hs1|exact Hs].
Qed.

Lemma step_one_end (s s' : Stream) :
  step_kind PayloadSize Period s s' -> one_end s -> one_end s'.
Proof.
  intros [Hq|Hc|got Hr|env ma mt s1 H1 Hopen Hw|k m env Hk Ht] Hs; subst.
  - eapply same_tx_one_end; eassumption.
  - apply (one_end_subset s); [| |exact Hs].
    + unfold Close. sim. destruct (decide _) as [Ho|Ho]; sim; [|auto]. congruence.
    + unfold Close. sim. destruct (decide _); sim; auto.
  - apply reader_one_end. assumption.
  - apply writer_send_one_end; [assumption|]. eapply same_tx_one_end; eassumption.
  - apply retx_Push_one_end; assumption.
Qed.

Lemma reachable_one_end (sys : System) :
  reachable PayloadSize Period sys -> one_end (stream sys).
Proof.
  induction 1 as [a b|o sys sys' _ IH Hexec].
  - unfold start, NewStream, exchange, io_ReadFull, one_end, published, queued. sim.
    split; [intros _ x Hx|intros x y Hx]; apply elem_of_nil in Hx; contradiction.
  - apply exec_step_kind in Hexec. exact (step_one_end _ _ Hexec IH).
Qed.

(** [txFrame] returns no error when the nonce is drawn and Put succeeds. *)
Lemma txFrame_succeeds (env : TxEnv) (frame : Frame) (s : Stream) :
  nonce env <> None -> put_ok env = true ->
  (txFrame PayloadSize Period env frame s).2 = None.
Proof.
  intros Hn Hp. unfold txFrame. destruct (nonce env); [|contradiction]. rewrite Hp.
  destruct (_ <? _); reflexivity.
Qed.

(** With a teardown due and nothing left to write, the writer decides to
    send with [mustTeardown]. *)
Lemma writer_begin_teardown_due (s : Stream) :
  Mode s = ReliableStream -> halted s = false -> WState s <> StreamClosed ->
  RState s = StreamClosed \/ WState s = StreamClosing -> writeBuf s = [] ->
  exists mustAck, writer_begin s = (s, Send mustAck true).
Proof.
  intros Hm Hh HW Hclosing Hbuf. unfold writer_begin. rewrite Hh, Hbuf.
  rewrite (bool_decide_eq_true_2 _ Hclosing).
  destruct (decide (Mode s = ReliableStream)) as [_|]; [|contradiction].
  change (len [] =? 0) with true. cbn [andb negb].
  rewrite andb_false_r.
  destruct (WState s); [eauto|eauto|contradiction].
Qed.

(** C5 (amended).  In every state of an execution: all the frames of kind
    End that have been put are one and the same frame, and none has been
    put while the write half is not Closed.  An iteration of the writer
    in Reliable mode that finds the read half Closed or the write half
    Closing, the write half not Closed and the write buffer empty, sets
    the write half to Closed as it assembles its frame; when the nonce is
    drawn and Put succeeds, that frame, of kind End, is what it puts next;
    when Put fails, nothing is put and the write half stays Closed. *)
Theorem teardown_end_frame (sys : System) :
  reachable PayloadSize Period sys ->
  (forall p q, p ∈ c (stream sys) -> q ∈ c (stream sys) ->
               Type_ (put_frame p) = StreamEnd -> Type_ (put_frame q) = StreamEnd ->
               put_frame p = put_frame q)
  /\ (WState (stream sys) <> StreamClosed ->
      forall p, p ∈ c (stream sys) -> Type_ (put_frame p) <> StreamEnd)
  /\ (forall env sys',
        writer_at sys = AtLoop ->
        Mode (stream sys) = ReliableStream -> halted (stream sys) = false ->
        WState (stream sys) <> StreamClosed ->
        RState (stream sys) = StreamClosed \/ WState (stream sys) = StreamClosing ->
        writeBuf (stream sys) = [] ->
        exec PayloadSize Period (OpWriter env) sys = Some sys' ->
        WState (stream sys') = StreamClosed
        /\ (0 <= FramePayloadSize PayloadSize -> nonce env <> None -> put_ok env = true ->
            exists p, c (stream sys') = p :: c (stream sys)
                      /\ Type_ (put_frame p) = StreamEnd
                      /\ id (put_frame p) = f_write_idx (stream sys))
        /\ (put_ok env = false ->
            c (stream sys') = c (stream sys) /\ panicked sys' = true)).
Proof.
  intros Hreach. destruct (reachable_one_end sys Hreach) as [Hnone Hone].
  assert (Hpub : forall p, p ∈ c (stream sys) ->
                           put_frame p ∈ published (stream sys) ++ queued (stream sys)).
  { intros p Hp. apply elem_of_app. left. apply list_elem_of_fmap_2. exact Hp. }
  split; [intros p q Hp Hq; apply Hone; auto|].
  split; [intros Ho p Hp; apply Hnone; auto|].
  intros env sys' Hat Hm Hh HW Hclosing Hbuf Hexec.
  unfold exec in Hexec. destruct (panicked sys) eqn:Hpan; [discriminate|].
  rewrite Hat in Hexec.
  destruct (writer_begin_teardown_due (stream sys) Hm Hh HW Hclosing Hbuf) as [ma Hb].
  rewrite Hb in Hexec. injection Hexec as <-. sim.
  unfold writer_send.
  pose proof (writer_frame_effect PayloadSize true (stream sys))
    as (Hc & _ & _ & Hm1 & HW1 & HT & Hid & _).
  destruct (writer_frame PayloadSize true (stream sys)) as [s1 frame]. sim.
  rewrite orb_true_r.
  pose proof (txFrame_cases PayloadSize Period env frame s1) as (HW2 & _ & Hcase).
  cbv zeta in HW2, Hcase.
  destruct (Z.ltb_spec (FramePayloadSize PayloadSize) 0) as [Hneg|Hpos]; sim.
  { split; [assumption|]. split; [lia|]. auto. }
  pose proof (txFrame_succeeds env frame s1) as Hsucc.
  destruct (txFrame PayloadSize Period env frame s1) as [s2 [e|]]; sim.
  - split; [congruence|].
    destruct Hcase as [(_ & Hc2 & _)|(Hn & _)]; [|discriminate].
    split; [|intros _; split; [congruence|reflexivity]].
    intros _ Hnonce Hput. specialize (Hsucc Hnonce Hput). discriminate.
  - split; [congruence|].
    destruct Hcase as [(Hn & _)|(_ & Hput & (n0 & _ & Hc2) & _)]; [contradiction|].
    split.
    + intros _ _ _. eexists. split; [rewrite Hc2, Hc; reflexivity|].
      cbn [put_frame txFrame_put]. split; assumption.
    + intros Hf. congruence.
Qed.

End Teardown.

Lemma system_closing_reachable : reachable P1000 Period7 system_closing.
Proof.
  apply (run_reachable P1000 Period7 [OpClose] system0).
  - apply reachable_start.
  - vm_compute. reflexivity.
Qed.

Lemma teardown_end_frame_witness :
  WState (stream system_end) = StreamClosed
  /\ exists p, c (stream system_end) = p :: c (stream system_closing)
               /\ Type_ (put_frame p) = StreamEnd
               /\ id (put_frame p) = f_write_idx (stream system_closing).
Proof.
  destruct (teardown_end_frame P1000 Period7 system_closing system_closing_reachable)
    as (_ & _ & Hiter).
  destruct (Hiter env_ok system_end) as (HW & Hput & _).
  - vm_compute. reflexivity.
  - vm_compute. reflexivity.
  - vm_compute. reflexivity.
  - vm_compute. discriminate.
  - right. vm_compute. reflexivity.
  - vm_compute. reflexivity.
  - vm_compute. reflexivity.
  - split; [exact HW|]. apply Hput.
    + vm_compute. discriminate.
    + vm_compute. discriminate.
    + reflexivity.
Defined.

(** The counterexample to C5 as stated: after [Close] on a fresh stream
    the write half is Closing and the write buffer empty; the frame the
    writer then assembles leaves the write half Closed before anything is
    put; and when the Put of that frame fails, the write half is Closed
    although no frame has been published. *)
Lemma closed_before_published :
  reachable P1000 Period7 system_closing
  /\ WState (stream system_closing) = StreamClosing
  /\ writeBuf (stream system_closing) = []
  /\ (let s1 := (writer_frame P1000 true (stream system_closing)).1 in
      WState s1 = StreamClosed /\ c s1 = [])
  /\ exec P1000 Period7 (OpWriter env_put_fails) system_closing = Some system_failed_end
  /\ WState (stream system_failed_end) = StreamClosed
  /\ c (stream system_failed_end) = [].
Proof.
  split; [apply system_closing_reachable|].
  repeat split; vm_compute; reflexivity.
Qed.
